(** * Kernel session management of the Jupyter extension: a shallow embedding

    The development follows the TypeScript sources:
    - [ServerCache]          serverCache.node.ts (class ServerCache)
    - [SessionManager]       jupyterSessionManager.node.ts (class JupyterSessionManager)
    - [KernelProvider]       kernelProvider (class KernelProvider, getOrCreate)
    - [RemoteKernelFinder]   remoteKernelFinder (class RemoteKernelFinder)
    The definitions come first, then the concrete inputs of [Examples], then
    the properties, one module of facts for each module of definitions.

    JavaScript runs on one event loop: a piece of code between two [await]s
    is atomic.  Every asynchronous method is therefore cut at its awaits
    into synchronous phases, and what an awaited collaborator answers is an
    explicit argument of the phase that follows. *)

From stdpp Require Import gmap strings list fin_maps.

Local Open Scope string_scope.
Local Open Scope list_scope.

(** ** What JavaScript does with values *)

Module JS.

(** The errors the modelled code raises itself, and those that reach it
    from a collaborator. *)
Inductive Error :=
| SessionDisposedError
| InsecureSessionDenied
| PasswordRequestNotAllowed
| PasswordFailure
| TypeError
| External (e : string).

(** Outcome of an awaited call: it returns or it throws. *)
Inductive Result (A : Type) : Type :=
| Ok (a : A)
| Throw (e : Error).
Arguments Ok {A} a.
Arguments Throw {A} e.

(** Outcome of [Promise.race([sleep(10_000), p])]: [p] settles first, or
    the sleep does. *)
Inductive Race (A : Type) : Type :=
| Settles (r : Result A)
| TimedOut.
Arguments Settles {A} r.
Arguments TimedOut {A}.

(** Truthiness of a [string | undefined]. *)
Definition truthy (s : option string) : bool :=
  match s with
  | Some s => negb (String.eqb s "")
  | None => false
  end.

(** Truthiness of a [boolean | undefined]. *)
Definition truthyb (b : option bool) : bool :=
  match b with
  | Some b => b
  | None => false
  end.

(** A template literal prints [undefined] for a missing value. *)
Definition show (s : option string) : string :=
  match s with
  | Some s => s
  | None => "undefined"
  end.

Definition showb (b : bool) : string := if b then "true" else "false".

(** [s.startsWith(p)] *)
Definition startsWith (p s : string) : bool := String.prefix p s.

(** [s.replace(pat, rep)] with a string pattern: the first occurrence only. *)
Fixpoint replace (pat rep s : string) : string :=
  if String.prefix pat s
  then rep +:+ String.substring (String.length pat) (String.length s - String.length pat) s
  else match s with
       | EmptyString => EmptyString
       | String c s' => String c (replace pat rep s')
       end.

(** [parseInt(n.toString(), 10)] of a number that is an integer below
    1e21 in size: [toString] prints all its digits and the integer comes
    back.  From 1e21 on [toString] prints an exponent and parseInt reads
    the digits before the point only; a count of connections is far below
    that, and the case is left out. *)
Definition parseInt_toString (n : Z) : Z := n.

End JS.

Import JS.

(** ** serverCache.node.ts *)

Module ServerCache.

Record INotebookServerOptions := {
  uri : option string;
  resource : option string;
  skipUsingDefaultConfig : option bool;
  workingDir : option string;
  disableUI : bool;
  localJupyter : bool
}.

(** interface IServerData; [promise] is the identity of the promise the
    creation function returned. *)
Record IServerData := {
  options : INotebookServerOptions;
  promise : nat;
  resolved : bool
}.

(** What a creation promise settles to. *)
Inductive Settled :=
| Fulfilled (server : option nat)
| Rejected (e : string).

(** [cache] is the Map of the class.  A data object is created together
    with one call of the creation function and holds the promise that call
    returned, so the promise identifies the object: promise i belongs to
    the i-th call, whose arguments [calls] records.  [disposers] gives,
    for a server object, the keys its wrapped [dispose] deletes, outermost
    wrapper first. *)
Record State := {
  cache : gmap string IServerData;
  calls : list INotebookServerOptions;
  disposers : gmap nat (list string)
}.

Definition init : State :=
  {| cache := ∅; calls := []; disposers := ∅ |}.

Definition set_cache (c : gmap string IServerData) (st : State) : State :=
  {| cache := c; calls := calls st; disposers := disposers st |}.

(** [data.resolved = true] on the object a caller captured: the write
    shows in the cache when the entry of [key] still is that object. *)
Definition mark_resolved (p : nat) (d : IServerData) : IServerData :=
  if decide (promise d = p)
  then {| options := options d; promise := promise d; resolved := true |}
  else d.

Section WithCollaborators.

(** calculateWorkingDirectory(configService, workspace, fs, resource) *)
Variable calculateWorkingDirectory : option string -> option string.

Definition generateDefaultOptions (o : INotebookServerOptions) : INotebookServerOptions :=
  {| uri := uri o;
     resource := resource o;
     skipUsingDefaultConfig := skipUsingDefaultConfig o;
     workingDir := if truthy (workingDir o) then workingDir o
                   else calculateWorkingDirectory (resource o);
     disableUI := disableUI o;
     localJupyter := localJupyter o |}.

Definition generateKey (o : INotebookServerOptions) : string :=
  let uri := if truthy (uri o) then show (uri o) else "" in
  let useFlag := if truthyb (skipUsingDefaultConfig o) then "true" else "false" in
  "uri=" +:+ uri +:+ ";useFlag=" +:+ useFlag +:+ ";local=" +:+ showb (localJupyter o)
    +:+ ";workingDir=" +:+ show (workingDir o).

Definition keyOf (o : INotebookServerOptions) : string :=
  generateKey (generateDefaultOptions o).

(** getOrCreate, from after [await this.generateDefaultOptions] up to
    the [return data.promise.then(...)]: the promise the caller is
    chained on, and the new state. *)
Definition getOrCreate_begin (o : INotebookServerOptions) (st : State) : nat * State :=
  let fixedOptions := generateDefaultOptions o in
  let key := generateKey fixedOptions in
  match cache st !! key with
  | Some data => (promise data, st)
  | None =>
      let p := length (calls st) in
      let data := {| options := fixedOptions; promise := p; resolved := false |} in
      (p, {| cache := <[key := data]> (cache st);
             calls := calls st ++ [o];
             disposers := disposers st |})
  end.

(** The [.then(...).catch(...)] chain of a caller that waits on promise
    [p] for [key], run when the promise settles: what the caller's own
    promise settles to, and the new state. *)
Definition getOrCreate_settled (key : string) (p : nat) (r : Settled) (st : State)
  : Settled * State :=
  match r with
  | Fulfilled None => (Fulfilled None, set_cache (delete key (cache st)) st)
  | Fulfilled (Some server) =>
      (Fulfilled (Some server),
       {| cache := alter (mark_resolved p) key (cache st);
          calls := calls st;
          disposers := <[server := key :: default [] (disposers st !! server)]> (disposers st) |})
  | Rejected e => (Rejected e, set_cache (delete key (cache st)) st)
  end.

(** [server.dispose()] after the wrapping: every wrapper deletes its key. *)
Definition dispose_server (server : nat) (st : State) : State :=
  set_cache (foldl (λ c k, delete k c) (cache st) (default [] (disposers st !! server))) st.

(** get(options) *)
Definition get (o : INotebookServerOptions) (st : State) : option nat :=
  promise <$> cache st !! keyOf o.

(** clearCache() *)
Definition clearCache (st : State) : State := set_cache ∅ st.

(** What may happen between two calls: another call; the continuation
    of an earlier caller; the [dispose] of a server a call resolved to,
    which runs the wrappers put around it; clearCache; and dispose of the
    cache with its flag not yet set, which clears the Map before it waits
    for anything. *)
Inductive Event :=
| EvCall (o : INotebookServerOptions)
| EvSettled (key : string) (p : nat) (r : Settled)
| EvDisposeServer (server : nat)
| EvClearCache
| EvDispose.

Definition step (ev : Event) (st : State) : State :=
  match ev with
  | EvCall o => (getOrCreate_begin o st).2
  | EvSettled key p r => (getOrCreate_settled key p r st).2
  | EvDisposeServer server => dispose_server server st
  | EvClearCache => clearCache st
  | EvDispose => set_cache ∅ st
  end.

Definition run (evs : list Event) (st : State) : State :=
  foldl (λ st ev, step ev st) st evs.

(** An event that does not delete [key] in the state it happens in:
    a call, a promise that gives a server, a failure for another key, and
    the dispose of a server that no wrapper ties to [key]. *)
Definition spares (key : string) (ev : Event) (st : State) : bool :=
  match ev with
  | EvCall _ => true
  | EvSettled key' _ (Fulfilled (Some _)) => true
  | EvSettled key' _ _ => negb (String.eqb key' key)
  | EvDisposeServer server => negb (bool_decide (key ∈ default [] (disposers st !! server)))
  | EvClearCache | EvDispose => false
  end.

(** Every event of a run spares [key]. *)
Fixpoint sparedBy (key : string) (evs : list Event) (st : State) : bool :=
  match evs with
  | [] => true
  | ev :: evs => spares key ev st && sparedBy key evs (step ev st)
  end.

(** The calls of the creation function made for [key]. *)
Definition createdFor (key : string) (st : State) : list INotebookServerOptions :=
  filter (λ o, keyOf o = key) (calls st).

End WithCollaborators.

End ServerCache.

(** ** jupyterSessionManager.node.ts *)

Module SessionManager.

Record IJupyterConnection := {
  baseUrl : string;
  token : string;
  localLaunch : bool;
  getAuthHeader : bool   (* whether an auth-header accessor is supplied *)
}.

(** *** The insecure-connection prompt *)

(** What [appShell.showWarningMessage] resolves to: one of the three
    labels, or nothing when the message is dismissed. *)
Inductive Response := Yes | No | DoNotShowAgain | Dismissed.

(** The state the trust check reads and writes: the persistent flag
    [userAllowsInsecureConnections], the static Map [secureServers] from a
    base URL to a promise, and the prompts shown so far; promise i is the
    one the i-th prompt returned, settled once that prompt is answered. *)
Record Trust := {
  userAllowsInsecureConnections : bool;
  secureServers : gmap string nat;
  prompts : list (option Response)
}.

Definition noTrust : Trust :=
  {| userAllowsInsecureConnections := false; secureServers := ∅; prompts := [] |}.

(** insecureServerWarningPrompt, up to its await: the prompt is on screen. *)
Definition insecureServerWarningPrompt (t : Trust) : nat * Trust :=
  (length (prompts t),
   {| userAllowsInsecureConnections := userAllowsInsecureConnections t;
      secureServers := secureServers t;
      prompts := prompts t ++ [None] |}).

(** insecureServerWarningPrompt, from the answer on: the value of the promise. *)
Definition promptValue (r : Response) : bool :=
  match r with
  | Yes => true
  | DoNotShowAgain => true
  | No | Dismissed => false
  end.

(** The user answers prompt [p]; "do not show again" turns the global flag on. *)
Definition answer (p : nat) (r : Response) (t : Trust) : Trust :=
  match prompts t !! p with
  | Some None =>
      {| userAllowsInsecureConnections :=
           match r with
           | DoNotShowAgain => true
           | _ => userAllowsInsecureConnections t
           end;
         secureServers := secureServers t;
         prompts := <[p := Some r]> (prompts t) |}
  | _ => t
  end.

Inductive Check :=
| Secure              (* returned without a question *)
| Awaits (p : nat).   (* waits on promise [p] *)

(** secureConnectionCheck, up to [await serverSecurePromise]. *)
Definition secureConnectionCheck_begin (connInfo : IJupyterConnection) (t : Trust)
  : Check * Trust :=
  if userAllowsInsecureConnections t then (Secure, t)
  else if localLaunch connInfo || startsWith "https" (baseUrl connInfo)
          || negb (String.eqb (token connInfo) "null")
  then (Secure, t)
  else match secureServers t !! baseUrl connInfo with
       | Some p => (Awaits p, t)
       | None =>
           let '(p, t') := insecureServerWarningPrompt t in
           (Awaits p,
            {| userAllowsInsecureConnections := userAllowsInsecureConnections t';
               secureServers := <[baseUrl connInfo := p]> (secureServers t');
               prompts := prompts t' |})
       end.

(** secureConnectionCheck, after the await: [None] while the promise is
    pending. *)
Definition secureConnectionCheck_end (p : nat) (t : Trust) : option (Result unit) :=
  match prompts t !! p with
  | Some (Some r) => Some (if promptValue r then Ok () else Throw InsecureSessionDenied)
  | _ => None
  end.

(** The whole check when nothing else runs in between: [user] is what the
    user answers if the check has to wait for an answer. *)
Definition secureConnectionCheck (connInfo : IJupyterConnection) (user : Response) (t : Trust)
  : Result unit * Trust :=
  match secureConnectionCheck_begin connInfo t with
  | (Secure, t1) => (Ok (), t1)
  | (Awaits p, t1) =>
      let r := match prompts t1 !! p with
               | Some (Some r) => r
               | _ => user
               end in
      (if promptValue r then Ok () else Throw InsecureSessionDenied, answer p user t1)
  end.

(** Number of prompts the check has put on screen so far. *)
Definition promptsShown (t : Trust) : nat := length (prompts t).

(** *** Connection settings *)

Record IJupyterPasswordConnectInfo := {
  requestHeaders : option (option string);   (* the headers, with their Cookie *)
  remappedBaseUrl : option string;
  remappedToken : option string
}.

(** The fields of ServerConnection.ISettings the method decides.
    [s_rejectUnauthorizedOff] says that the requests are given an agent
    with [rejectUnauthorized: false]; [s_cookieString],
    [s_webSocketAllowUnauthorized] and [s_authorizingRequest] are what
    createJupyterWebSocket is called with. *)
Record Settings := {
  s_baseUrl : string;
  s_wsUrl : string;
  s_token : string;
  s_appendToken : bool;
  s_headers : option (option string);
  s_cookieString : option string;
  s_authorizingRequest : bool;
  s_rejectUnauthorizedOff : bool;
  s_webSocketAllowUnauthorized : bool
}.

(** The condition of the password branch. *)
Definition tokenMissing (connInfo : IJupyterConnection) : bool :=
  (String.eqb (token connInfo) "" || String.eqb (token connInfo) "null")
  && negb (getAuthHeader connInfo).

(** getServerConnectSettings, after the trust check. [pw] is what
    [jupyterPasswordConnect.getPasswordConnectionInfo] answers. *)
Definition connectSettings (failOnPassword allowUnauthorized : bool)
    (connInfo : IJupyterConnection)
    (pw : Result (option IJupyterPasswordConnectInfo)) : Result Settings :=
  let agent := startsWith "https" (baseUrl connInfo) && allowUnauthorized in
  let base tok app hdrs cookie burl :=
    {| s_baseUrl := burl; s_wsUrl := replace "http" "ws" burl;
       s_token := tok; s_appendToken := app; s_headers := hdrs;
       s_cookieString := cookie; s_authorizingRequest := getAuthHeader connInfo;
       s_rejectUnauthorizedOff := agent;
       s_webSocketAllowUnauthorized := allowUnauthorized |} in
  if tokenMissing connInfo then
    if failOnPassword then Throw PasswordRequestNotAllowed
    else match pw with
         | Throw e => Throw e
         | Ok (Some pwSettings) =>
             match requestHeaders pwSettings with
             | Some hdrs =>
                 let burl := if truthy (remappedBaseUrl pwSettings)
                             then show (remappedBaseUrl pwSettings) else baseUrl connInfo in
                 let tok := if truthy (remappedToken pwSettings)
                            then show (remappedToken pwSettings) else "" in
                 Ok (base tok false (Some hdrs) (Some (if truthy hdrs then show hdrs else "")) burl)
             | None => Ok (base (token connInfo) false None None (baseUrl connInfo))
             end
         | Ok None => Throw PasswordFailure
         end
  else Ok (base (token connInfo) true None None (baseUrl connInfo)).

(** getServerConnectSettings *)
Definition getServerConnectSettings (failOnPassword allowUnauthorized : bool)
    (connInfo : IJupyterConnection) (user : Response)
    (pw : Result (option IJupyterPasswordConnectInfo)) (t : Trust)
  : Result Settings * Trust :=
  match secureConnectionCheck connInfo user t with
  | (Throw e, t') => (Throw e, t')
  | (Ok _, t') => (connectSettings failOnPassword allowUnauthorized connInfo pw, t')
  end.

(** *** The manager *)

(** A kernel spec model of the server, and the specs the KernelSpecManager
    holds: [None] while it has fetched nothing, else the [kernelspecs]
    object, its keys in the order Object.keys gives them. *)
Record ISpecModel := {
  sm_name : string;
  sm_argv : list string;
  sm_language : string;
  sm_display_name : string
}.

Definition KernelSpecs := list (string * option ISpecModel).
Definition Specs := option KernelSpecs.

(** class JupyterKernelSpec, built from a spec model alone. *)
Record IJupyterKernelSpec := {
  name : string;
  argv : list string;
  language : string;
  display_name : string;
  path : string   (* uri: Uri.file(argv[0]), or Uri.file('') *)
}.

Definition JupyterKernelSpec (specModel : ISpecModel) : IJupyterKernelSpec :=
  {| name := sm_name specModel;
     argv := sm_argv specModel;
     language := sm_language specModel;
     display_name := sm_display_name specModel;
     path := match sm_argv specModel with
             | a :: _ => a
             | [] => ""
             end |}.

(** The fields of the class that the methods below test; each manager of
    jupyterlab is there or [undefined]. *)
Record Manager := {
  connInfo : option IJupyterConnection;
  serverSettings : option Settings;
  sessionManager : bool;
  contentsManager : bool;
  specsManager : option Specs
}.

Definition uninitialized : Manager :=
  {| connInfo := None; serverSettings := None; sessionManager := false;
     contentsManager := false; specsManager := None |}.

(** initialize(connInfo) *)
Definition initialize (failOnPassword allowUnauthorized : bool)
    (conn : IJupyterConnection) (user : Response)
    (pw : Result (option IJupyterPasswordConnectInfo)) (t : Trust)
  : Result Manager * Trust :=
  match getServerConnectSettings failOnPassword allowUnauthorized conn user pw t with
  | (Throw e, t') => (Throw e, t')
  | (Ok settings, t') =>
      (Ok {| connInfo := Some conn; serverSettings := Some settings;
             sessionManager := true; contentsManager := true;
             specsManager := Some None |}, t')
  end.

(** dispose().  [contentsDispose] and [sessionDispose] are what the
    [dispose] of the two jupyterlab managers do, [ready] the race on
    [sessionManager.ready]; [isDisposed] tells whether the session manager
    was disposed already.  Whatever is thrown inside the [try] ends the
    block and is logged, so the method itself never throws. *)
Definition dispose (contentsDispose sessionDispose : Result unit) (ready : Race unit)
    (isDisposed : bool) (m : Manager) : Manager :=
  let disposeSession (m : Manager) : Manager :=
    if sessionManager m && negb isDisposed then
      match ready, sessionDispose with
      | Settles (Throw _), _ => m
      | _, Throw _ => m
      | _, Ok _ =>
          {| connInfo := connInfo m; serverSettings := serverSettings m;
             sessionManager := false; contentsManager := contentsManager m;
             specsManager := specsManager m |}
      end
    else m in
  if contentsManager m then
    match contentsDispose with
    | Throw _ => m
    | Ok _ =>
        disposeSession
          {| connInfo := connInfo m; serverSettings := serverSettings m;
             sessionManager := sessionManager m; contentsManager := false;
             specsManager := specsManager m |}
    end
  else disposeSession m.

(** *** startNew *)

(** What startNew sees of a JupyterSession. *)
Record JupyterSession := {
  kernelConnection : string;
  workingDirectory : string;
  isConnected : bool;
  isDisposed : bool
}.

Definition newJupyterSession (kernelConnection workingDirectory : string) : JupyterSession :=
  {| kernelConnection := kernelConnection; workingDirectory := workingDirectory;
     isConnected := false; isDisposed := false |}.

(** Modelled from the spec: class JupyterSession (jupyterSession.node) is
    not among the sources.  Its [dispose] is "idempotent; safe to call
    multiple times" and brings the session to the Disposed state. *)
Definition session_dispose (s : JupyterSession) : JupyterSession :=
  {| kernelConnection := kernelConnection s; workingDirectory := workingDirectory s;
     isConnected := isConnected s; isDisposed := true |}.

Section StartNew.

(** [session.connect(...)]: the session it leaves, and whether it threw.
    The method belongs to the absent class, so it is any function. *)
Variable connect : JupyterSession -> JupyterSession * Result unit.

(** startNew: what it returns or throws, and the session objects it has
    created, as they are when it completes.  A session it returns is the
    object it created, so what [connect] and [dispose] did to the object
    shows in both. *)
Definition startNew (m : Manager) (kernelConnection workingDirectory : string)
  : Result JupyterSession * list JupyterSession :=
  if negb (bool_decide (is_Some (connInfo m))) || negb (sessionManager m)
     || negb (contentsManager m) || negb (bool_decide (is_Some (serverSettings m)))
     || negb (bool_decide (is_Some (specsManager m)))
  then (Throw SessionDisposedError, [])
  else
    let session := newJupyterSession kernelConnection workingDirectory in
    let '(session, r) := connect session in
    (* finally *)
    let session := if negb (isConnected session) then session_dispose session else session in
    match r with
    | Throw e => (Throw e, [session])
    | Ok _ => (Ok session, [session])
    end.

End StartNew.



(** *** getKernelSpecs *)

(** [specs && Object.keys(specs.kernelspecs).length ? specs.kernelspecs : other] *)
Definition kernelspecsOr (specsManager : option Specs) (other : KernelSpecs) : KernelSpecs :=
  match specsManager with
  | Some (Some kernelspecs) =>
      match kernelspecs with
      | [] => other
      | _ :: _ => kernelspecs
      end
  | _ => other
  end.

Section GetKernelSpecs.

(** createInterpreterKernelSpec() of kernels/helpers, not among the sources. *)
Variable createInterpreterKernelSpec : IJupyterKernelSpec.

(** [ready] is the race on [sessionManager.ready], [refresh] the one on
    [specsManager.refreshSpecs()], which leaves the specs the server
    answered in the specs manager when it settles in time.  Whatever is
    thrown inside the [try] is caught and answered with no spec at all,
    also the TypeError of building a spec from a missing model. *)
Definition getKernelSpecs (m : Manager) (ready : Race unit) (refresh : Race Specs)
  : Result (list IJupyterKernelSpec) * Manager :=
  if negb (bool_decide (is_Some (connInfo m))) || negb (sessionManager m)
     || negb (contentsManager m)
  then (Throw SessionDisposedError, m)
  else
    let oldKernelSpecs := kernelspecsOr (specsManager m) [] in
    match ready with
    | Settles (Throw e) => (Ok [], m)
    | _ =>
        match specsManager m, refresh with
        | Some _, Settles (Throw e) => (Ok [], m)
        | sm, _ =>
            let m' :=
              match sm, refresh with
              | Some _, Settles (Ok specs) =>
                  {| connInfo := connInfo m; serverSettings := serverSettings m;
                     sessionManager := sessionManager m;
                     contentsManager := contentsManager m;
                     specsManager := Some specs |}
              | _, _ => m
              end in
            let kernelspecs := kernelspecsOr (specsManager m') oldKernelSpecs in
            match kernelspecs with
            | _ :: _ =>
                match mapM (λ k, JupyterKernelSpec <$> k.2) kernelspecs with
                | Some specs => (Ok specs, m')
                | None => (Ok [], m')
                end
            | [] => (Ok [createInterpreterKernelSpec], m')
            end
        end
    end.

End GetKernelSpecs.

(** *** getRunningKernels *)

(** A kernel model of [KernelAPI.listRunning], read as a JSON object. *)
Record KernelModel := {
  km_id : string;
  km_name : string;
  last_activity : option string;
  connections : option Z
}.

Record IJupyterKernel := {
  id : string;
  k_name : string;
  lastActivityTime : Z;
  numberOfConnections : Z
}.

Section GetRunningKernels.

(** [new Date()] at the time of the call and [Date.parse]. *)
Variable now : Z.
Variable Date_parse : string -> Z.

(** The callback of [models.map]. *)
Definition toJupyterKernel (m : KernelModel) : IJupyterKernel :=
  {| id := km_id m;
     k_name := km_name m;
     lastActivityTime := if truthy (last_activity m)
                         then Date_parse (show (last_activity m)) else now;
     numberOfConnections := match connections m with
                            | Some n => if Z.eqb n 0 then 0%Z else parseInt_toString n
                            | None => 0%Z
                            end |}.

(** [.filter(...)] with the Set [dup] its callback reads and extends. *)
Fixpoint filterDup (dup : gset string) (items : list IJupyterKernel) : list IJupyterKernel :=
  match items with
  | [] => []
  | item :: items =>
      if decide (id item ∈ dup) then filterDup dup items
      else item :: filterDup ({[id item]} ∪ dup) items
  end.

(** getRunningKernels; [listRunning] is what the server call gives. *)
Definition getRunningKernels (listRunning : Result (list KernelModel))
  : Result (list IJupyterKernel) :=
  match listRunning with
  | Throw e => Throw e
  | Ok models => Ok (filterDup ∅ (map toJupyterKernel models))
  end.

End GetRunningKernels.

(** A session model: its kernel, when it has one. *)
Record SessionModel := {
  session_id : string;
  kernel : option KernelModel
}.

(** getRunningSessions; [refreshRunning] is what the refresh leaves in
    [sessionManager.running()]. *)
Definition getRunningSessions (m : Manager) (refreshRunning : Result (list SessionModel))
  : Result (list SessionModel) :=
  if negb (sessionManager m) then Ok []
  else refreshRunning.

(** The reading of the claim about running kernels: an entry stays when no
    entry before it has its id. *)
Fixpoint keepFirstById (seen : list string) (items : list IJupyterKernel)
  : list IJupyterKernel :=
  match items with
  | [] => []
  | item :: items =>
      if bool_decide (id item ∈ seen) then keepFirstById seen items
      else item :: keepFirstById (seen ++ [id item]) items
  end.

(** The five fields startNew asks for are there. *)
Definition initialized (m : Manager) : bool :=
  bool_decide (is_Some (connInfo m)) && sessionManager m && contentsManager m
  && bool_decide (is_Some (serverSettings m)) && bool_decide (is_Some (specsManager m)).

(** The three fields getKernelSpecs asks for are there. *)
Definition usable (m : Manager) : bool :=
  bool_decide (is_Some (connInfo m)) && sessionManager m && contentsManager m.

(** A wait that ends without an error: in time, or by the sleep. *)
Definition noError {A} (r : Race A) : bool :=
  match r with
  | Settles (Throw _) => false
  | _ => true
  end.

(** The specs manager holds no spec: it fetched nothing yet, or an empty
    list. *)
Definition holdsNoSpecs (sm : option Specs) : bool :=
  match sm with
  | Some (Some (_ :: _)) => false
  | _ => true
  end.

(** The refresh brings no spec: it does not end in time, or the server
    answers none. *)
Definition yieldsNoSpecs (refresh : Race Specs) : bool :=
  match refresh with
  | TimedOut => true
  | Settles (Ok specs) => holdsNoSpecs (Some specs)
  | Settles (Throw _) => false
  end.

(** No kernel spec model is missing under its key. *)
Definition allDefined (kernelspecs : KernelSpecs) : bool :=
  forallb (λ k, bool_decide (is_Some k.2)) kernelspecs.

(** What the specs manager holds after the race on the refresh. *)
Definition specsAfter (sm : option Specs) (refresh : Race Specs) : option Specs :=
  match sm, refresh with
  | Some _, Settles (Ok specs) => Some specs
  | _, _ => sm
  end.

(** The kernel specs getKernelSpecs enumerates: those held after the
    refresh, or else those held before it. *)
Definition enumerated (m : Manager) (refresh : Race Specs) : KernelSpecs :=
  kernelspecsOr (specsAfter (specsManager m) refresh) (kernelspecsOr (specsManager m) []).

(** [item] stands in [l] before any other entry of its id. *)
Definition firstOfItsId (item : IJupyterKernel) (l : list IJupyterKernel) : Prop :=
  ∃ i, l !! i = Some item ∧ ∀ j y, j < i → l !! j = Some y → id y ≠ id item.

End SessionManager.

(** ** kernelProvider: class KernelProvider *)

Module KernelProvider.

(** A notebook document of [workspace.notebookDocuments]; the object is
    identified by its place in that list. *)
Record NotebookDocument := {
  nb_uri : string;
  notebookType : string
}.

Record KernelOptions := {
  metadata_id : string;          (* options.metadata.id *)
  resourceUri : option string;
  controller : nat
}.

(** What [new Kernel(...)] is given, and whether the kernel was disposed. *)
Record Kernel := {
  k_uri : string;
  k_resourceUri : option string;
  k_metadata_id : string;
  k_waitForIdleTimeout : nat;
  k_controller : nat;
  disposed : bool
}.

(** An entry of the identity tables; [kernel] is the object, an index
    into [kernels]. *)
Record KernelInfo := {
  options : KernelOptions;
  kernel : nat
}.

Inductive Event :=
| Disposed (k : nat)
| Constructed (k : nat)
| Recorded (uri : string) (k : nat).

Record State := {
  notebookDocuments : list NotebookDocument;
  kernelsByNotebook : gmap nat KernelInfo;
  kernelsByUri : gmap string KernelInfo;
  kernels : list Kernel;
  asyncDisposables : list nat;
  trace : list Event
}.

Definition init (notebooks : list NotebookDocument) : State :=
  {| notebookDocuments := notebooks; kernelsByNotebook := ∅; kernelsByUri := ∅;
     kernels := []; asyncDisposables := []; trace := [] |}.

(** [workspace.notebookDocuments.find((nb) => nb.uri.toString() === uri.toString())] *)
Definition findNotebook (uri : string) (st : State) : option (nat * NotebookDocument) :=
  list_find (λ nb, nb_uri nb = uri) (notebookDocuments st).

Definition set_disposed (k : Kernel) : Kernel :=
  {| k_uri := k_uri k; k_resourceUri := k_resourceUri k; k_metadata_id := k_metadata_id k;
     k_waitForIdleTimeout := k_waitForIdleTimeout k; k_controller := k_controller k;
     disposed := true |}.

(** Modelled from the spec: class BaseKernelProvider (kernelProvider.base)
    is not among the sources.  getInternal answers whether "a kernel
    already exists for the identity": it reads the table getOrCreate
    writes for that identity, kernelsByNotebook when the document is open
    and kernelsByUri otherwise. *)
Definition getInternal (uri : string) (st : State) : option KernelInfo :=
  match findNotebook uri st with
  | Some (nb, _) => kernelsByNotebook st !! nb
  | None => kernelsByUri st !! uri
  end.

(** Modelled from the spec: get(uri) of the absent base class, "the
    kernel mapped to the identity". *)
Definition get (uri : string) (st : State) : option nat :=
  kernel <$> getInternal uri st.

(** Modelled from the spec: class Kernel is not among the sources.  Its
    dispose is idempotent, so a kernel fires its disposed event once. *)
Definition fireDisposed (k : nat) (st : State) : State :=
  match kernels st !! k with
  | Some data =>
      if disposed data then st
      else {| notebookDocuments := notebookDocuments st;
              kernelsByNotebook := kernelsByNotebook st;
              kernelsByUri := kernelsByUri st;
              kernels := <[k := set_disposed data]> (kernels st);
              asyncDisposables := asyncDisposables st;
              trace := trace st ++ [Disposed k] |}
  | None => st
  end.

Definition fireDisposedOf (info : option KernelInfo) (st : State) : State :=
  match info with
  | Some info => fireDisposed (kernel info) st
  | None => st
  end.

(** Modelled from the spec: the absent base class takes the entry of an
    identity out of both tables. *)
Definition deleteMapping (uri : string) (st : State) : State :=
  {| notebookDocuments := notebookDocuments st;
     kernelsByNotebook := match findNotebook uri st with
                          | Some (nb, _) => delete nb (kernelsByNotebook st)
                          | None => kernelsByNotebook st
                          end;
     kernelsByUri := delete uri (kernelsByUri st);
     kernels := kernels st;
     asyncDisposables := asyncDisposables st;
     trace := trace st |}.

(** Modelled from the spec: disposeOldKernel(uri) of the absent base
    class, "dispose the old kernel (if any)": what either table holds for
    the identity is taken out of the table and disposed. *)
Definition disposeOldKernel (uri : string) (st : State) : State :=
  let byNotebook := match findNotebook uri st with
                    | Some (nb, _) => kernelsByNotebook st !! nb
                    | None => None
                    end in
  let byUri := kernelsByUri st !! uri in
  fireDisposedOf byUri (fireDisposedOf byNotebook (deleteMapping uri st)).

(** Modelled from the spec: the handler deleteMappingIfKernelIsDisposed
    (absent base class) registers on a kernel, run when the kernel is
    disposed by its owner: the mapping of the identity goes when it still
    leads to this kernel. *)
Definition kernel_dispose (k : nat) (st : State) : State :=
  match kernels st !! k with
  | Some data =>
      let st' := fireDisposed k st in
      if bool_decide (get (k_uri data) st' = Some k) then deleteMapping (k_uri data) st'
      else st'
  | None => st
  end.

Section WithSettings.

(** The constant InteractiveWindowView of notebooks/constants, and
    [configService.getSettings(resourceUri).jupyterLaunchTimeout]. *)
Variable InteractiveWindowView : string.
Variable jupyterLaunchTimeout : option string -> nat.

(** [new Kernel(...)], the event forwarding and [asyncDisposables.push]. *)
Definition construct (uri : string) (options : KernelOptions) (st : State) : nat * State :=
  let notebook := findNotebook uri st in
  let resourceUri :=
    match notebook with
    | Some (_, nb) => if String.eqb (notebookType nb) InteractiveWindowView
                      then resourceUri options else Some uri
    | None => Some uri
    end in
  let waitForIdleTimeout := jupyterLaunchTimeout resourceUri in
  let k := length (kernels st) in
  (k, {| notebookDocuments := notebookDocuments st;
         kernelsByNotebook := kernelsByNotebook st;
         kernelsByUri := kernelsByUri st;
         kernels := kernels st ++
           [{| k_uri := uri; k_resourceUri := resourceUri;
               k_metadata_id := metadata_id options;
               k_waitForIdleTimeout := waitForIdleTimeout;
               k_controller := controller options; disposed := false |}];
         asyncDisposables := asyncDisposables st ++ [k];
         trace := trace st ++ [Constructed k] |}).

(** [kernelsByNotebook.set(notebook, ...)] or [kernelsByUri.set(uri.toString(), ...)] *)
Definition record (uri : string) (options : KernelOptions) (k : nat) (st : State) : State :=
  let info := {| options := options; kernel := k |} in
  {| notebookDocuments := notebookDocuments st;
     kernelsByNotebook := match findNotebook uri st with
                          | Some (nb, _) => <[nb := info]> (kernelsByNotebook st)
                          | None => kernelsByNotebook st
                          end;
     kernelsByUri := match findNotebook uri st with
                     | Some _ => kernelsByUri st
                     | None => <[uri := info]> (kernelsByUri st)
                     end;
     kernels := kernels st;
     asyncDisposables := asyncDisposables st;
     trace := trace st ++ [Recorded uri k] |}.

(** getOrCreate(uri, options) *)
Definition getOrCreate (uri : string) (options : KernelOptions) (st : State) : nat * State :=
  let existingKernelInfo := getInternal uri st in
  match existingKernelInfo with
  | Some info =>
      if String.eqb (metadata_id (KernelProvider.options info)) (metadata_id options)
      then (kernel info, st)
      else let '(k, st') := construct uri options (disposeOldKernel uri st) in
           (k, record uri options k st')
  | None =>
      let '(k, st') := construct uri options (disposeOldKernel uri st) in
      (k, record uri options k st')
  end.

(** The steps of getOrCreate when it does not reuse a kernel. *)
Definition replaced (uri : string) (options : KernelOptions) (st : State) : nat * State :=
  let st1 := disposeOldKernel uri st in
  let st2 := (construct uri options st1).2 in
  (length (kernels st1), record uri options (length (kernels st1)) st2).

(** What happens to a provider while the notebook documents of the
    workspace stay as they are: a request for a kernel, or the owner of a
    kernel disposing it.  A document that is opened or closed is not
    among the actions. *)
Inductive Action :=
| GetOrCreate (uri : string) (options : KernelOptions)
| KernelDispose (k : nat).

Definition step (a : Action) (st : State) : State :=
  match a with
  | GetOrCreate uri options => (getOrCreate uri options st).2
  | KernelDispose k => kernel_dispose k st
  end.

Definition run (acts : list Action) (st : State) : State :=
  foldl (λ st a, step a st) st acts.

End WithSettings.

(** The tables and the kernels agree: a kernel that is not disposed is
    the one its identity maps to; what an identity maps to is a kernel
    made for it that is not disposed; and an entry sits in the table
    that serves its identity. *)
Record Inv (st : State) : Prop := {
  inv_live : ∀ k data, kernels st !! k = Some data → disposed data = false →
                       get (k_uri data) st = Some k;
  inv_mapped : ∀ uri info, getInternal uri st = Some info →
                 ∃ data, kernels st !! kernel info = Some data ∧
                         k_uri data = uri ∧ disposed data = false;
  inv_byUri : ∀ uri info, kernelsByUri st !! uri = Some info → findNotebook uri st = None;
  inv_byNotebook : ∀ nb info, kernelsByNotebook st !! nb = Some info →
                     ∃ doc, findNotebook (nb_uri doc) st = Some (nb, doc)
}.

(** The kernels made for an identity that are not disposed. *)
Definition isLive (uri : string) (st : State) (k : nat) : bool :=
  match kernels st !! k with
  | Some data => bool_decide (k_uri data = uri) && negb (disposed data)
  | None => false
  end.

Definition liveKernels (uri : string) (st : State) : list nat :=
  filter (λ k, isLive uri st k = true) (seq 0 (length (kernels st))).

End KernelProvider.

(** ** remoteKernelFinder: class RemoteKernelFinder *)

Module RemoteKernelFinder.

Import SessionManager.

(** [connInfo.type] is 'jupyter' or 'raw'. *)
Inductive INotebookProviderConnection :=
| Jupyter (c : IJupyterConnection)
| Raw.

(** The kernel model of a live connection: the kernel of the session,
    the fields of the spec of its name when there is one, and the
    session itself. *)
Record LiveKernelModel := {
  lk_id : string;
  lk_name : string;
  lk_lastActivityTime : Z;
  lk_numberOfConnections : Z;
  lk_spec : option IJupyterKernelSpec;
  lk_model : SessionModel
}.

Inductive KernelConnectionMetadata :=
| startUsingRemoteKernelSpec
    (interpreter : option string) (kernelSpec : IJupyterKernelSpec) (id baseUrl : string)
| connectToLiveRemoteKernel (kernelModel : LiveKernelModel) (baseUrl id : string).

(** A promise with the time at which it settles. *)
Record Timed (A : Type) := { settledAt : nat; outcome : Result A }.
Arguments settledAt {A} _.
Arguments outcome {A} _.

Definition rejection {A} (p : Timed A) : list (nat * Error) :=
  match outcome p with
  | Throw e => [(settledAt p, e)]
  | Ok _ => []
  end.

(** The rejection that comes first; of two at the same time, the one of
    the promise listed first. *)
Fixpoint earliest (l : list (nat * Error)) : option (nat * Error) :=
  match l with
  | [] => None
  | (t, e) :: l =>
      match earliest l with
      | Some (t', e') => if Nat.ltb t' t then Some (t', e') else Some (t, e)
      | None => Some (t, e)
      end
  end.

(** [Promise.all([a, b, c])] *)
Definition promiseAll3 {A B C} (a : Timed A) (b : Timed B) (c : Timed C)
  : Result (A * B * C) :=
  match outcome a, outcome b, outcome c with
  | Ok x, Ok y, Ok z => Ok (x, y, z)
  | _, _, _ =>
      match earliest (rejection a ++ rejection b ++ rejection c) with
      | Some (_, e) => Throw e
      | None => Throw (External "unreachable")
      end
  end.

(** [Promise.all(l.map(f))] where the calls settle in the order of the list. *)
Fixpoint mapAll {A B} (f : A -> Result B) (l : list A) : Result (list B) :=
  match l with
  | [] => Ok []
  | a :: l =>
      match f a with
      | Throw e => Throw e
      | Ok b => match mapAll f l with
                | Throw e => Throw e
                | Ok bs => Ok (b :: bs)
                end
      end
  end.

(** What the server and the user answer during one listing. *)
Record World := {
  allowUnauthorized : bool;
  user : Response;
  pw : Result (option IJupyterPasswordConnectInfo);
  listRunning : Timed (list KernelModel);
  ready : Race unit;
  refresh : Race Specs;
  specsAt : nat;
  refreshRunning : Timed (list SessionModel)
}.

Inductive FinderEvent := ManagerCreated | ManagerDisposed.

Section ListKernels.

Variable now : Z.
Variable Date_parse : string -> Z.
Variable createInterpreterKernelSpec : IJupyterKernelSpec.
(** getKernelId(spec, undefined, baseUrl) of kernels/helpers *)
Variable getKernelId : IJupyterKernelSpec -> string -> string.
(** [new url.URL(baseUrl).hostname]; [None] when the URL is invalid *)
Variable URL_hostname : string -> option string.
Variable toLocaleLowerCase : string -> string.
(** [interpreterService.getInterpreterDetails(Uri.file(path))] *)
Variable getInterpreterDetails : option string -> Result (option string).

(** JupyterSessionManagerFactory.create(connInfo) *)
Definition create (w : World) (c : IJupyterConnection) (t : Trust) : Result Manager * Trust :=
  initialize false (allowUnauthorized w) c (user w) (pw w) t.

Definition getInterpreter (spec : IJupyterKernelSpec) (baseUrl : string)
  : Result (option string) :=
  match URL_hostname baseUrl with
  | None => Throw TypeError
  | Some hostname =>
      if String.eqb (toLocaleLowerCase hostname) "localhost" || String.eqb hostname "127.0.0.1"
      then getInterpreterDetails (head (argv spec))
      else Ok None
  end.

Definition mappedSpecs (specs : list IJupyterKernelSpec) (baseUrl : string)
  : Result (list KernelConnectionMetadata) :=
  mapAll (λ s, match getInterpreter s baseUrl with
               | Throw e => Throw e
               | Ok interpreter =>
                   Ok (startUsingRemoteKernelSpec interpreter s (getKernelId s baseUrl) baseUrl)
               end) specs.

(** The callback of [sessions.map]; a session without a kernel makes it
    read a property of [null]. *)
Definition mappedLive1 (running : list IJupyterKernel) (specs : list IJupyterKernelSpec)
    (baseUrl : string) (s : SessionModel) : Result KernelConnectionMetadata :=
  match kernel s with
  | None => Throw TypeError
  | Some liveKernel =>
      let lastActivityTime := if truthy (last_activity liveKernel)
                              then Date_parse (show (last_activity liveKernel)) else now in
      let numberOfConnections := match connections liveKernel with
                                 | Some n => if Z.eqb n 0 then 0%Z else parseInt_toString n
                                 | None => 0%Z
                                 end in
      let activeKernel := find (λ active, String.eqb (SessionManager.id active) (km_id liveKernel))
                               running in
      let matchingSpec := find (λ spec, String.eqb (name spec) (km_name liveKernel)) specs in
      Ok (connectToLiveRemoteKernel
            {| lk_id := match activeKernel with
                        | Some active => SessionManager.id active
                        | None => km_id liveKernel
                        end;
               lk_name := km_name liveKernel;
               lk_lastActivityTime := lastActivityTime;
               lk_numberOfConnections := numberOfConnections;
               lk_spec := matchingSpec;
               lk_model := s |}
            baseUrl (km_id liveKernel))
  end.

Definition hidden (kernelIdsToHide : gset string) (k : KernelConnectionMetadata) : bool :=
  match k with
  | connectToLiveRemoteKernel kernelModel _ _ => bool_decide (lk_id kernelModel ∈ kernelIdsToHide)
  | _ => false
  end.

(** listKernels(resource, connInfo, cancelToken) *)
Definition listKernels (kernelIdsToHide : gset string)
    (connInfo : option INotebookProviderConnection) (w : World) (t : Trust)
  : Result (list KernelConnectionMetadata) * Trust * list FinderEvent :=
  match connInfo with
  | Some (Jupyter c) =>
      match create w c t with
      | (Throw e, t') => (Throw e, t', [])
      | (Ok sessionManager, t') =>
          let running := {| settledAt := settledAt (listRunning w);
                            outcome := getRunningKernels now Date_parse (outcome (listRunning w)) |} in
          let specs := {| settledAt := specsAt w;
                          outcome := (getKernelSpecs createInterpreterKernelSpec sessionManager
                                        (ready w) (refresh w)).1 |} in
          let sessions := {| settledAt := settledAt (refreshRunning w);
                             outcome := getRunningSessions sessionManager
                                          (outcome (refreshRunning w)) |} in
          let items :=
            match promiseAll3 running specs sessions with
            | Throw e => Throw e
            | Ok (running, specs, sessions) =>
                match mappedSpecs specs (baseUrl c) with
                | Throw e => Throw e
                | Ok mappedSpecs =>
                    match mapAll (mappedLive1 running specs (baseUrl c)) sessions with
                    | Throw e => Throw e
                    | Ok mappedLive =>
                        Ok (filter (λ k, hidden kernelIdsToHide k = false) mappedLive
                              ++ mappedSpecs)%list
                    end
                end
            end in
          (* finally: sessionManager.dispose() *)
          (items, t', [ManagerCreated; ManagerDisposed])
      end
  | _ => (Ok [], t, [])
  end.

End ListKernels.

End RemoteKernelFinder.

(** ** More of serverCache.node.ts: dispose, and everything that touches the cache *)

Module ServerCacheOps.

Import ServerCache.

(** dispose(), up to [await Promise.all]: with the flag [disposed] of the
    class, the new flag, the entries snapshotted, and the state. *)
Definition dispose_begin (disposed : bool) (st : State)
  : bool * gmap string IServerData * State :=
  if disposed then (true, ∅, st)
  else (true, cache st, set_cache ∅ st).

Inductive DisposeLog :=
| ServerDisposed (server : nat)
| NoServer           (* the sleep won: 'ServerCache Dispose, no server' *)
| DisposeError.      (* something was thrown, and logged *)

(** The callback of [entries.map] for one entry, from the race on.  [won]
    is what the promise of the entry settled to when it beat [sleep(1000)],
    [oldDispose] what the server's own dispose does.  A promise that gave
    no server makes the callback call a method of [undefined]. *)
Definition dispose_entry (won : option Settled) (oldDispose : Result unit) (st : State)
  : DisposeLog * State :=
  match won with
  | None => (NoServer, st)
  | Some (Fulfilled (Some server)) =>
      (match oldDispose with
       | Ok _ => ServerDisposed server
       | Throw _ => DisposeError
       end, dispose_server server st)
  | Some (Fulfilled None) => (DisposeError, st)
  | Some (Rejected _) => (DisposeError, st)
  end.

Section WithCollaborators.

Variable calculateWorkingDirectory : option string -> option string.

(** What can happen to a cache. *)
Inductive Op :=
| OpCall (o : INotebookServerOptions)
| OpSettled (key : string) (p : nat) (r : Settled)
| OpDisposeServer (server : nat)
| OpClearCache
| OpDispose.

Definition apply (op : Op) (st : State) : State :=
  match op with
  | OpCall o => (getOrCreate_begin calculateWorkingDirectory o st).2
  | OpSettled key p r => (getOrCreate_settled key p r st).2
  | OpDisposeServer server => dispose_server server st
  | OpClearCache => clearCache st
  | OpDispose => (dispose_begin false st).2
  end.

Definition applyAll (ops : list Op) (st : State) : State :=
  foldl (λ st op, apply op st) st ops.

(** Every entry sits under the key of the call that created its promise
    and holds the normalized options of that call. *)
Definition Consistent (st : State) : Prop :=
  ∀ key data, cache st !! key = Some data →
    ∃ o, calls st !! promise data = Some o ∧
         keyOf calculateWorkingDirectory o = key ∧
         options data = generateDefaultOptions calculateWorkingDirectory o.

End WithCollaborators.

End ServerCacheOps.

(** ** More of jupyterSessionManager.node.ts: a process that connects again and again *)

Module Connections.

Import SessionManager.

(** The trust checks of a sequence of connections, each with what the user
    would answer, and their results. *)
Fixpoint checkAll (conns : list (IJupyterConnection * Response)) (t : Trust)
  : list (Result unit) * Trust :=
  match conns with
  | [] => ([], t)
  | (conn, user) :: conns =>
      let '(r, t') := secureConnectionCheck conn user t in
      let '(rs, t'') := checkAll conns t' in
      (r :: rs, t'')
  end.

(** A connection the trust check has a question about. *)
Definition insecure (conn : IJupyterConnection) : bool :=
  negb (localLaunch conn) && negb (startsWith "https" (baseUrl conn))
  && String.eqb (token conn) "null".

(** Every cached promise is the promise of a prompt that was shown and
    answered, and every prompt is cached for one base URL. *)
Definition OnePromptPerUrl (t : Trust) : Prop :=
  size (secureServers t) = length (prompts t) ∧
  (∀ url p, secureServers t !! url = Some p → ∃ r, prompts t !! p = Some (Some r)) ∧
  (∀ url url' p, secureServers t !! url = Some p → secureServers t !! url' = Some p → url = url').

End Connections.

(** ** kernelFinder: class KernelFinder *)

Module KernelFinder.

(** [s.includes(sub)] *)
Fixpoint includes (sub s : string) : bool :=
  String.prefix sub s ||
  match s with
  | EmptyString => false
  | String _ s' => includes sub s'
  end.

(** What isValidCachedKernel reads of a kernel connection. *)
Inductive KernelConnectionMetadata :=
| startUsingRemoteKernelSpec (baseUrl : string)
| connectToLiveRemoteKernel (baseUrl : string)
| startUsingPythonInterpreter (interpreterPath : string)
| startUsingLocalKernelSpec (specFile : option string) (interpreterPath : option string).

Section IsValidCachedKernel.

(** [fs.localFileExists] and [serverUriStorage.getUri()] *)
Variable localFileExists : string -> bool.
Variable getUri : string.

(** isValidCachedKernel(kernel) *)
Definition isValidCachedKernel (kernel : KernelConnectionMetadata) : bool :=
  match kernel with
  | startUsingRemoteKernelSpec baseUrl
  | connectToLiveRemoteKernel baseUrl => includes baseUrl getUri
  | startUsingPythonInterpreter interpreterPath => localFileExists interpreterPath
  | startUsingLocalKernelSpec specFile interpreter =>
      let r := if truthy specFile then localFileExists (show specFile) else true in
      match interpreter with
      | Some interpreterPath => if r then localFileExists interpreterPath else true
      | None => true
      end
  end.

End IsValidCachedKernel.

End KernelFinder.

(** ** jupyterUtils: createRemoteConnectionInfo *)

Module JupyterUtils.

Import SessionManager.

(** What the code reads of a parsed [URL]; [tokenParam] is
    [searchParams.get('token')], [None] for [null]. *)
Record URL := {
  protocol : string;
  host : string;
  hostname : string;
  pathname : string;
  tokenParam : option string
}.

Record IJupyterServerUri := {
  su_baseUrl : string;
  su_token : string;
  su_displayName : string
}.

(** The connection info made for a remote server: the fields the session
    manager reads, in [connection], and the others. *)
Record RemoteConnectionInfo := {
  connection : IJupyterConnection;
  hostName : string;
  displayName : string;
  rootDirectory : string;
  url : string
}.

(** A template literal prints [null] for a missing parameter. *)
Definition showNull (s : option string) : string :=
  match s with
  | Some s => s
  | None => "null"
  end.

Section CreateRemoteConnectionInfo.

(** [new URL(uri)], [None] when it throws; the lookup of a server URI of a
    provider; getJupyterConnectionDisplayName of jupyterConnection.node. *)
Variable parseURL : string -> option URL.
Variable getJupyterServerUri : string -> option IJupyterServerUri.
Variable getJupyterConnectionDisplayName : string -> string -> string.

(** createRemoteConnectionInfo(uri, getJupyterServerUri) *)
Definition createRemoteConnectionInfo (uri : string) : Result RemoteConnectionInfo :=
  match parseURL uri with
  | None => Throw TypeError
  | Some url0 =>
      let uri := if String.eqb (pathname url0) "/lab" then replace "lab" "" uri else uri in
      match parseURL uri with
      | None => Throw TypeError
      | Some url =>
          let serverUri := getJupyterServerUri uri in
          let baseUrl :=
            match serverUri with
            | Some su => su_baseUrl su
            | None => protocol url +:+ "//" +:+ host url +:+ pathname url
            end in
          let token :=
            match serverUri with
            | Some su => su_token su
            | None => showNull (tokenParam url)
            end in
          let hostName :=
            match serverUri with
            | Some su => hostname <$> parseURL (su_baseUrl su)
            | None => Some (hostname url)
            end in
          match hostName with
          | None => Throw TypeError
          | Some hostName =>
              Ok {| connection :=
                      {| SessionManager.baseUrl := baseUrl;
                         SessionManager.token := token;
                         localLaunch := false;
                         getAuthHeader := bool_decide (is_Some serverUri) |};
                    hostName := hostName;
                    displayName :=
                      match serverUri with
                      | Some su =>
                          if negb (String.eqb (su_displayName su) "") then su_displayName su
                          else getJupyterConnectionDisplayName token baseUrl
                      | None => getJupyterConnectionDisplayName token baseUrl
                      end;
                    rootDirectory := "";
                    url := uri |}
          end
      end
  end.

End CreateRemoteConnectionInfo.

(** No occurrence of [pat] in [pre ++ pat ++ rest] starts inside [pre]:
    the one after [pre] is the first. *)
Fixpoint firstOccurrence (pat pre rest : string) : bool :=
  match pre with
  | EmptyString => true
  | String _ pre' =>
      negb (String.prefix pat (pre +:+ pat +:+ rest)) && firstOccurrence pat pre' rest
  end.

End JupyterUtils.

(** ** More of remoteKernelFinder: the list of kernels to hide *)

Module IgnoreList.

(** What the handlers read of a [Kernel.IKernelConnection]. *)
Record IKernelConnection := {
  kc_id : string;
  clientId : string
}.

(** addKernelToIgnoreList(kernel) *)
Definition addKernelToIgnoreList (kernel : IKernelConnection) (kernelIdsToHide : gset string)
  : gset string :=
  {[clientId kernel]} ∪ ({[kc_id kernel]} ∪ kernelIdsToHide).

(** removeKernelFromIgnoreList(kernel) *)
Definition removeKernelFromIgnoreList (kernel : IKernelConnection) (kernelIdsToHide : gset string)
  : gset string :=
  (kernelIdsToHide ∖ {[kc_id kernel]}) ∖ {[clientId kernel]}.

(** The two ids of a kernel connection. *)
Definition idsOf (kernel : IKernelConnection) : gset string :=
  {[kc_id kernel; clientId kernel]}.

(** A host name for which getInterpreter asks the interpreter service. *)
Definition sameMachine (toLocaleLowerCase : string -> string) (hostname : string) : bool :=
  String.eqb (toLocaleLowerCase hostname) "localhost" || String.eqb hostname "127.0.0.1".

End IgnoreList.

(** ** Concrete inputs *)

Module Examples.

Module Cache.

Import ServerCache.

Definition options1 : INotebookServerOptions :=
  {| uri := Some "http://host:8888"; resource := None; skipUsingDefaultConfig := None;
     workingDir := Some "/work"; disableUI := false; localJupyter := false |}.

(** The same server asked for with the flag spelled out and without UI. *)
Definition options2 : INotebookServerOptions :=
  {| uri := Some "http://host:8888"; resource := Some "/work/a.ipynb";
     skipUsingDefaultConfig := Some false;
     workingDir := Some "/work"; disableUI := true; localJupyter := false |}.

Definition otherOptions : INotebookServerOptions :=
  {| uri := None; resource := None; skipUsingDefaultConfig := None;
     workingDir := None; disableUI := false; localJupyter := true |}.

Definition noWorkingDirectory : option string -> option string := λ _, None.

End Cache.

Module Sessions.

Import SessionManager.

Definition someConnection : IJupyterConnection :=
  {| baseUrl := "http://host:8888"; token := "abc"; localLaunch := false;
     getAuthHeader := false |}.

Definition someSettings : Settings :=
  {| s_baseUrl := "http://host:8888"; s_wsUrl := "ws://host:8888"; s_token := "abc";
     s_appendToken := true; s_headers := None; s_cookieString := None;
     s_authorizingRequest := false; s_rejectUnauthorizedOff := false;
     s_webSocketAllowUnauthorized := false |}.

Definition someManager : Manager :=
  {| connInfo := Some someConnection; serverSettings := Some someSettings;
     sessionManager := true; contentsManager := true; specsManager := Some None |}.

(** A connect that runs into the launch timeout. *)
Definition connectTimesOut (s : JupyterSession) : JupyterSession * Result unit :=
  (s, Throw (External "timeout")).


Definition insecureConnection : IJupyterConnection :=
  {| baseUrl := "http://host:8888"; token := "null"; localLaunch := false;
     getAuthHeader := false |}.

Definition otherInsecureConnection : IJupyterConnection :=
  {| baseUrl := "http://other:8888"; token := "null"; localLaunch := false;
     getAuthHeader := false |}.

Definition secureConnection : IJupyterConnection :=
  {| baseUrl := "https://host:8888"; token := "abc"; localLaunch := false;
     getAuthHeader := false |}.


(** Two kernel specs as a server lists them. *)
Definition python3Model : ISpecModel :=
  {| sm_name := "python3"; sm_argv := ["python"; "-m"; "ipykernel_launcher"];
     sm_language := "python"; sm_display_name := "Python 3" |}.

Definition juliaModel : ISpecModel :=
  {| sm_name := "julia"; sm_argv := []; sm_language := "julia"; sm_display_name := "Julia" |}.

Definition someSpecs : KernelSpecs := [("python3", Some python3Model); ("julia", Some juliaModel)].

(** A manager whose specs manager knows the two specs. *)
Definition managerWithSpecs : Manager :=
  {| connInfo := Some someConnection; serverSettings := Some someSettings;
     sessionManager := true; contentsManager := true; specsManager := Some (Some someSpecs) |}.

Definition kernelA : KernelModel :=
  {| km_id := "a"; km_name := "python3"; last_activity := None; connections := Some 2%Z |}.

Definition kernelB : KernelModel :=
  {| km_id := "b"; km_name := "julia"; last_activity := Some "t"; connections := None |}.

Definition defaultSpec : IJupyterKernelSpec :=
  {| name := "python3"; argv := ["python"; "-m"; "ipykernel_launcher"];
     language := "python"; display_name := "Python 3"; path := "python" |}.

End Sessions.

Module Kernels.

Import KernelProvider.

Definition python : KernelOptions :=
  {| metadata_id := "python3-venv"; resourceUri := None; controller := 0 |}.

(** The same connection asked for through another controller. *)
Definition pythonAgain : KernelOptions :=
  {| metadata_id := "python3-venv"; resourceUri := Some "/work/a.py"; controller := 1 |}.

Definition julia : KernelOptions :=
  {| metadata_id := "julia-1.7"; resourceUri := None; controller := 2 |}.

Definition notebooks : list NotebookDocument :=
  [{| nb_uri := "/work/a.ipynb"; notebookType := "jupyter-notebook" |}].

Definition timeout : option string -> nat := λ _, 60.

(** A provider with the kernel K1 of the open document. *)
Definition withK1 : State :=
  (getOrCreate "interactive" timeout "/work/a.ipynb" python (init notebooks)).2.

End Kernels.

Module Finder.

Import SessionManager RemoteKernelFinder.

(** A server with a token that stops answering when asked for its kernels. *)
Definition serverDown : World :=
  {| allowUnauthorized := false;
     user := Dismissed;
     pw := Ok None;
     listRunning := {| settledAt := 1; outcome := Throw (External "ECONNREFUSED") |};
     ready := Settles (Ok ());
     refresh := Settles (Ok (Some []));
     specsAt := 2;
     refreshRunning := {| settledAt := 3; outcome := Ok [] |} |}.

Definition listing :=
  listKernels 0 (λ _, 0%Z) Sessions.defaultSpec (λ spec _, name spec)
    (λ _, Some "host") (λ s, s) (λ _, Ok None)
    ∅ (Some (Jupyter Sessions.someConnection)) serverDown noTrust.

(** A server that answers, with two kernels and a session on each. *)
Definition serverUp : World :=
  {| allowUnauthorized := false;
     user := Dismissed;
     pw := Ok None;
     listRunning := {| settledAt := 1; outcome := Ok [Sessions.kernelA; Sessions.kernelB] |};
     ready := Settles (Ok ());
     refresh := Settles (Ok (Some []));
     specsAt := 2;
     refreshRunning :=
       {| settledAt := 3;
          outcome := Ok [ {| session_id := "s1"; kernel := Some Sessions.kernelA |};
                          {| session_id := "s2"; kernel := Some Sessions.kernelB |} ] |} |}.

(** The same server with a session that has lost its kernel. *)
Definition serverWithOrphan : World :=
  {| allowUnauthorized := false;
     user := Dismissed;
     pw := Ok None;
     listRunning := {| settledAt := 1; outcome := Ok [Sessions.kernelA] |};
     ready := Settles (Ok ());
     refresh := Settles (Ok (Some []));
     specsAt := 2;
     refreshRunning :=
       {| settledAt := 3;
          outcome := Ok [ {| session_id := "s1"; kernel := Some Sessions.kernelA |};
                          {| session_id := "s0"; kernel := None |} ] |} |}.

(** The connection to kernel a that is being restarted. *)
Definition restarted : IgnoreList.IKernelConnection :=
  {| IgnoreList.kc_id := "a"; IgnoreList.clientId := "client-1" |}.

Definition listingOf (w : World) (hide : gset string) :=
  (listKernels 0 (λ _, 0%Z) Sessions.defaultSpec (λ spec _, name spec)
     (λ _, Some "host") (λ s, s) (λ _, Ok None)
     hide (Some (Jupyter Sessions.someConnection)) w noTrust).1.1.

End Finder.

Module Utils.

Import JupyterUtils.

(** [new URL] on the URIs of the examples. *)
Definition parseExample (uri : string) : option URL :=
  if String.eqb uri "http://host:8888/"
  then Some {| protocol := "http:"; host := "host:8888"; hostname := "host";
               pathname := "/"; tokenParam := None |}
  else if String.eqb uri "http://lab.example.com/lab"
  then Some {| protocol := "http:"; host := "lab.example.com"; hostname := "lab.example.com";
               pathname := "/lab"; tokenParam := None |}
  else if String.eqb uri "http://.example.com/lab"
  then Some {| protocol := "http:"; host := ".example.com"; hostname := ".example.com";
               pathname := "/lab"; tokenParam := None |}
  else None.

Definition noServerUri (uri : string) : option IJupyterServerUri := None.

Definition displayNameOf (token baseUrl : string) : string := baseUrl.

Definition infoOf (uri : string) : Result RemoteConnectionInfo :=
  createRemoteConnectionInfo parseExample noServerUri displayNameOf uri.

End Utils.

End Examples.

(** * Properties *)

(** ** The server cache *)

Module ServerCacheFacts.

Import ServerCache Examples.Cache.

Section Facts.

Variable cwd : option string -> option string.

Local Abbreviation keyOf := (keyOf cwd).
Local Abbreviation getOrCreate_begin := (getOrCreate_begin cwd).
Local Abbreviation run := (run cwd).
Local Abbreviation step := (step cwd).
Local Abbreviation createdFor := (createdFor cwd).
Local Abbreviation sparedBy := (sparedBy cwd).

Lemma begin_hit o st data :
  cache st !! keyOf o = Some data →
  getOrCreate_begin o st = (promise data, st).
Proof.
  intros Hhit. unfold ServerCache.getOrCreate_begin, ServerCache.keyOf in *.
  cbv zeta. by rewrite Hhit.
Qed.

Lemma begin_miss o st :
  cache st !! keyOf o = None →
  getOrCreate_begin o st =
    (length (calls st),
     {| cache := <[keyOf o := {| options := generateDefaultOptions cwd o;
                                 promise := length (calls st);
                                 resolved := false |}]> (cache st);
        calls := calls st ++ [o];
        disposers := disposers st |}).
Proof.
  intros Hmiss. unfold ServerCache.getOrCreate_begin, ServerCache.keyOf in *.
  cbv zeta. by rewrite Hmiss.
Qed.

Lemma mark_resolved_promise p d : promise (mark_resolved p d) = promise d.
Proof. unfold mark_resolved. by case_decide. Qed.

Lemma foldl_delete_spares (keys : list string) : ∀ (c : gmap string IServerData) key,
  key ∉ keys → foldl (λ c k, delete k c) c keys !! key = c !! key.
Proof.
  induction keys as [|k keys IH]; intros c key Hnot; cbn [foldl]; [done|].
  apply not_elem_of_cons in Hnot as [Hne Hnot].
  rewrite IH by done. by apply lookup_delete_ne.
Qed.

(** An event that spares [key] keeps its entry, up to the [resolved]
    flag, and calls the creation function for another key if at all. *)
Lemma step_spares key ev st d :
  spares key ev st = true →
  cache st !! key = Some d →
  ∃ d', cache (step ev st) !! key = Some d' ∧ promise d' = promise d ∧
        createdFor key (step ev st) = createdFor key st.
Proof.
  intros Hsp Hd. destruct ev as [o | key' p r | server | |]; unfold ServerCache.step;
    [| | | done | done].
  - destruct (cache st !! keyOf o) as [data|] eqn:Ho.
    + rewrite (begin_hit _ _ _ Ho). simpl. eauto.
    + rewrite (begin_miss _ _ Ho). simpl.
      assert (keyOf o ≠ key) as Hne by (intros Heq; rewrite Heq in Ho; congruence).
      exists d. rewrite lookup_insert_ne by done. split_and!; [done..|].
      unfold createdFor. simpl. rewrite filter_app, filter_cons_False by done.
      by rewrite filter_nil, app_nil_r.
  - destruct r as [[server|] | e]; simpl in *.
    + destruct (decide (key' = key)) as [->|Hne].
      * exists (mark_resolved p d). rewrite lookup_alter_eq, Hd. simpl.
        split_and!; [done | apply mark_resolved_promise | done].
      * exists d. by rewrite lookup_alter_ne.
    + apply negb_true_iff, String.eqb_neq in Hsp. exists d. by rewrite lookup_delete_ne.
    + apply negb_true_iff, String.eqb_neq in Hsp. exists d. by rewrite lookup_delete_ne.
  - cbn in Hsp. apply negb_true_iff, bool_decide_eq_false in Hsp.
    exists d. unfold dispose_server. cbn. by rewrite foldl_delete_spares.
Qed.

Lemma run_spares key evs : ∀ st d,
  sparedBy key evs st = true →
  cache st !! key = Some d →
  ∃ d', cache (run evs st) !! key = Some d' ∧ promise d' = promise d ∧
        createdFor key (run evs st) = createdFor key st.
Proof.
  induction evs as [|ev evs IH]; intros st d Hall Hd; simpl.
  - eauto.
  - cbn [sparedBy] in Hall. apply andb_true_iff in Hall as [Hev Hevs].
    destruct (step_spares key ev st d Hev Hd) as (d1 & Hd1 & Hp1 & Hc1).
    destruct (IH (step ev st) d1 Hevs Hd1) as (d2 & Hd2 & Hp2 & Hc2).
    exists d2. split_and!; [done | congruence | congruence].
Qed.

(** C1, as amended. Two calls whose options give the same key, the
    second made while the promise the first one created is pending, and
    nothing in between deletes the key: no clearCache, no dispose of the
    cache, no dispose of a server once cached under the key, no failure of
    another creation promise of the key.  Then the second call is chained
    on the promise of the first and calls nothing; the creation function
    is called for this key once in all, by the first call. *)
Theorem getOrCreate_shares_pending_promise
    (o1 o2 : INotebookServerOptions) (evs : list Event) (st : State) :
  keyOf o1 = keyOf o2 →
  cache st !! keyOf o1 = None →
  sparedBy (keyOf o1) evs (getOrCreate_begin o1 st).2 = true →
  let first := getOrCreate_begin o1 st in
  let between := run evs first.2 in
  let second := getOrCreate_begin o2 between in
  second.1 = first.1 ∧
  calls first.2 = calls st ++ [o1] ∧
  second.2 = between ∧
  createdFor (keyOf o1) second.2 = createdFor (keyOf o1) st ++ [o1].
Proof.
  intros Hkey Hmiss Hall. cbv zeta.
  rewrite (begin_miss _ _ Hmiss) in Hall |- *. cbn [fst snd] in Hall |- *.
  set (d := {| options := generateDefaultOptions cwd o1;
               promise := length (calls st); resolved := false |}).
  set (st1 := {| cache := <[keyOf o1 := d]> (cache st);
                 calls := calls st ++ [o1]; disposers := disposers st |}).
  assert (cache st1 !! keyOf o1 = Some d) as Hd by apply lookup_insert_eq.
  destruct (run_spares (keyOf o1) evs st1 d Hall Hd) as (d' & Hd' & Hp' & Hc').
  rewrite Hkey in Hd'. rewrite (begin_hit _ _ _ Hd'). cbn [fst snd].
  split_and!; [done | done | done |].
  rewrite Hc'. unfold createdFor, st1. cbn [calls].
  rewrite filter_app, filter_cons_True by done. by rewrite filter_nil.
Qed.

(** C7. When the creation promise a caller waits on rejects, or gives no
    server, the caller's chain deletes the entry of its key and passes
    the outcome on; the next call with that key calls the creation
    function again and is chained on the new promise. *)
Theorem getOrCreate_failure_evicts
    (o o' : INotebookServerOptions) (p : nat) (r : Settled) (st : State) :
  keyOf o' = keyOf o →
  (r = Fulfilled None ∨ ∃ e, r = Rejected e) →
  let settled := getOrCreate_settled (keyOf o) p r st in
  let retry := getOrCreate_begin o' settled.2 in
  settled.1 = r ∧
  cache settled.2 !! keyOf o = None ∧
  calls settled.2 = calls st ∧
  calls retry.2 = calls st ++ [o'] ∧
  retry.1 = length (calls st) ∧
  promise <$> cache retry.2 !! keyOf o = Some retry.1.
Proof.
  intros Hkey Hr settled retry.
  assert (settled = (r, set_cache (delete (keyOf o) (cache st)) st)) as Hs.
  { subst settled. destruct Hr as [-> | [e ->]]; reflexivity. }
  assert (cache settled.2 !! keyOf o' = None) as Hmiss.
  { rewrite Hs, Hkey. simpl. apply lookup_delete_eq. }
  subst retry. rewrite (begin_miss _ _ Hmiss). rewrite Hs. simpl.
  split_and!; [done | apply lookup_delete_eq | done | done | done |].
  rewrite Hkey, lookup_insert_eq. done.
Qed.

End Facts.

Example keyOf_options1 :
  keyOf noWorkingDirectory options1
  = "uri=http://host:8888;useFlag=false;local=false;workingDir=/work".
Proof. reflexivity. Qed.

Example keyOf_otherOptions :
  keyOf noWorkingDirectory otherOptions
  = "uri=;useFlag=false;local=true;workingDir=undefined".
Proof. reflexivity. Qed.

(** Disposing the server a call resolved to takes the entry out again. *)
Example dispose_server_evicts :
  let cwd := noWorkingDirectory in
  let first := getOrCreate_begin cwd options1 init in
  let settled := getOrCreate_settled (keyOf cwd options1) first.1 (Fulfilled (Some 7)) first.2 in
  resolved <$> cache settled.2 !! keyOf cwd options1 = Some true ∧
  get cwd options2 settled.2 = Some first.1 ∧
  get cwd options2 (dispose_server 7 settled.2) = None.
Proof. split_and!; reflexivity. Qed.

(** C1 as it stands fails.  A server once cached under the key is
    disposed a second time while the promise of the first call is pending:
    its wrapper deletes the key, the second call finds nothing, calls the
    creation function again and is chained on another promise. *)
Lemma getOrCreate_stale_dispose_creates_again :
  let cwd := noWorkingDirectory in
  let key := keyOf cwd options1 in
  let st := run cwd [EvCall options1; EvSettled key 0 (Fulfilled (Some 7));
                     EvDisposeServer 7] init in
  let first := getOrCreate_begin cwd options1 st in
  let between := run cwd [EvDisposeServer 7] first.2 in
  let second := getOrCreate_begin cwd options2 between in
  keyOf cwd options2 = key ∧
  cache st !! key = None ∧
  first.1 = 1 ∧
  resolved <$> cache first.2 !! key = Some false ∧
  second.1 = 2 ∧
  second.1 ≠ first.1 ∧
  calls second.2 = calls st ++ [options1; options2] ∧
  createdFor cwd key second.2 = createdFor cwd key st ++ [options1; options2].
Proof. split_and!; [reflexivity.. | discriminate | reflexivity | reflexivity]. Qed.

Lemma getOrCreate_shares_pending_promise_witness :
  let cwd := noWorkingDirectory in
  let evs := [EvCall otherOptions; EvSettled (keyOf cwd otherOptions) 1 (Rejected "down");
              EvDisposeServer 7] in
  let first := getOrCreate_begin cwd options1 init in
  let second := getOrCreate_begin cwd options2 (run cwd evs first.2) in
  second.1 = first.1 ∧
  calls first.2 = [options1] ∧
  second.2 = run cwd evs first.2 ∧
  createdFor cwd (keyOf cwd options1) second.2 = [options1].
Proof.
  apply (getOrCreate_shares_pending_promise noWorkingDirectory options1 options2
           [EvCall otherOptions;
            EvSettled (keyOf noWorkingDirectory otherOptions) 1 (Rejected "down");
            EvDisposeServer 7] init);
    reflexivity.
Defined.

Lemma getOrCreate_failure_evicts_witness :
  let cwd := noWorkingDirectory in
  let first := getOrCreate_begin cwd options1 init in
  let settled := getOrCreate_settled (keyOf cwd options1) first.1 (Rejected "down") first.2 in
  let retry := getOrCreate_begin cwd options2 settled.2 in
  settled.1 = Rejected "down" ∧
  cache settled.2 !! keyOf cwd options1 = None ∧
  calls settled.2 = calls first.2 ∧
  calls retry.2 = calls first.2 ++ [options2] ∧
  retry.1 = length (calls first.2) ∧
  promise <$> cache retry.2 !! keyOf cwd options1 = Some retry.1.
Proof.
  apply (getOrCreate_failure_evicts noWorkingDirectory options1 options2).
  - reflexivity.
  - right. by exists "down".
Defined.

End ServerCacheFacts.

(** ** The session manager *)

Module SessionManagerFacts.

Import SessionManager Examples.Sessions.

(** *** Connection settings *)

Example replace_first_only :
  replace "http" "ws" "https://host/http" = "wss://host/http".
Proof. reflexivity. Qed.

Example connectSettings_token :
  connectSettings false false someConnection (Ok None) = Ok someSettings.
Proof. reflexivity. Qed.

Example connectSettings_no_password_info :
  connectSettings false false insecureConnection (Ok None) = Throw PasswordFailure.
Proof. reflexivity. Qed.

(** The check in one piece is its two phases around the answer. *)
Lemma secureConnectionCheck_phases conn user t p t1 :
  secureConnectionCheck_begin conn t = (Awaits p, t1) →
  p < length (prompts t1) →
  secureConnectionCheck_end p (answer p user t1) = Some (secureConnectionCheck conn user t).1 ∧
  (secureConnectionCheck conn user t).2 = answer p user t1.
Proof.
  intros Hbegin Hp. unfold secureConnectionCheck. rewrite Hbegin. cbn [fst snd].
  split; [|done]. unfold secureConnectionCheck_end, answer.
  destruct (lookup_lt_is_Some_2 _ _ Hp) as [[r|] Hr]; rewrite Hr.
  - by rewrite Hr.
  - cbn [prompts]. by rewrite list_lookup_insert_eq.
Qed.

(** *** startNew *)

Lemma startNew_initialized connect m kc wd :
  initialized m = true →
  startNew connect m kc wd =
    let after := connect (newJupyterSession kc wd) in
    let session := if isConnected after.1 then after.1 else session_dispose after.1 in
    (match after.2 with Throw e => Throw e | Ok _ => Ok session end, [session]).
Proof.
  unfold initialized, startNew. intros Hin.
  repeat (apply andb_prop in Hin as [Hin ?]).
  rewrite Hin. repeat match goal with H : _ = true |- _ => rewrite H end. simpl.
  destruct (connect (newJupyterSession kc wd)) as [s r]. simpl.
  destruct (isConnected s); by destruct r.
Qed.

Lemma startNew_uninitialized connect m kc wd :
  initialized m = false →
  startNew connect m kc wd = (Throw SessionDisposedError, []).
Proof.
  unfold initialized, startNew. intros Hin.
  destruct (bool_decide (is_Some (connInfo m))), (sessionManager m), (contentsManager m),
    (bool_decide (is_Some (serverSettings m))), (bool_decide (is_Some (specsManager m)));
    simpl in *; congruence.
Qed.

Example startNew_before_initialize :
  startNew connectTimesOut uninitialized "python3" "/work" = (Throw SessionDisposedError, []).
Proof. reflexivity. Qed.




(** *** The trust check *)

Lemma prompts_answer_new (ps : list (option Response)) r :
  <[length ps := Some r]> (ps ++ [None]) = ps ++ [Some r].
Proof.
  replace (length ps) with (length ps + 0) by lia.
  by rewrite insert_app_r.
Qed.

(** The check asks when the flag is off, the server is remote, plain
    HTTP, with the token "null", and no promise is cached for its URL. *)
Lemma check_asks conn user t :
  userAllowsInsecureConnections t = false →
  localLaunch conn = false →
  startsWith "https" (baseUrl conn) = false →
  token conn = "null" →
  secureServers t !! baseUrl conn = None →
  secureConnectionCheck conn user t =
    (if promptValue user then Ok () else Throw InsecureSessionDenied,
     {| userAllowsInsecureConnections :=
          match user with DoNotShowAgain => true | _ => false end;
        secureServers := <[baseUrl conn := length (prompts t)]> (secureServers t);
        prompts := prompts t ++ [Some user] |}).
Proof.
  intros Hflag Hlocal Hhttps Htok Hnone.
  unfold secureConnectionCheck, secureConnectionCheck_begin.
  rewrite Hflag, Hlocal, Hhttps, Htok, Hnone. simpl.
  unfold answer. simpl. rewrite list_lookup_middle by done.
  rewrite prompts_answer_new. rewrite Hflag. by destruct user.
Qed.

(** With the flag on, the check returns at once. *)
Lemma check_flag_on conn user t :
  userAllowsInsecureConnections t = true →
  secureConnectionCheck conn user t = (Ok (), t).
Proof.
  intros Hflag. unfold secureConnectionCheck, secureConnectionCheck_begin.
  by rewrite Hflag.
Qed.

(** With another token than "null", the check returns at once. *)
Lemma check_token conn user t :
  token conn ≠ "null" →
  secureConnectionCheck conn user t = (Ok (), t).
Proof.
  intros Htok. unfold secureConnectionCheck, secureConnectionCheck_begin.
  destruct (userAllowsInsecureConnections t); [done|].
  apply String.eqb_neq in Htok. rewrite Htok. simpl.
  by rewrite orb_true_r.
Qed.

(** C5. A first connection to a remote plain-HTTP server with the token
    "null", no promise cached for its base URL and the global flag off:
    one prompt is shown, whatever the answer, and a connection that starts
    while the prompt is open waits on the same promise without a prompt of
    its own.  On No the connection fails
    with insecureSessionDenied.  On Yes the check passes and the settings
    are those of the rest of the method; a second connection to the same
    base URL passes without a prompt.  On "do not show again" the flag is
    on afterwards and no connection, to any server, is asked again. *)
Theorem insecure_connection_prompt
    (conn : IJupyterConnection) (t : Trust)
    (failOnPassword allowUnauthorized : bool)
    (pw : Result (option IJupyterPasswordConnectInfo)) :
  userAllowsInsecureConnections t = false →
  localLaunch conn = false →
  startsWith "https" (baseUrl conn) = false →
  token conn = "null" →
  secureServers t !! baseUrl conn = None →
  let connect user t := getServerConnectSettings failOnPassword allowUnauthorized conn user pw t in
  let asked := secureConnectionCheck_begin conn t in
  (∀ user, promptsShown (connect user t).2 = S (promptsShown t)) ∧
  (promptsShown asked.2 = S (promptsShown t) ∧
   secureConnectionCheck_begin conn asked.2 = (asked.1, asked.2)) ∧
  (connect No t).1 = Throw InsecureSessionDenied ∧
  ((connect Yes t).1 = connectSettings failOnPassword allowUnauthorized conn pw ∧
   secureConnectionCheck conn Yes t = (Ok (), (connect Yes t).2) ∧
   ∀ user, secureConnectionCheck conn user (connect Yes t).2 = (Ok (), (connect Yes t).2)) ∧
  (∀ conn' user, secureConnectionCheck conn' user (connect DoNotShowAgain t).2
                 = (Ok (), (connect DoNotShowAgain t).2)).
Proof.
  intros Hflag Hlocal Hhttps Htok Hnone. cbv zeta.
  unfold getServerConnectSettings.
  split_and!.
  - intros user. rewrite (check_asks conn user t) by done.
    destruct (promptValue user); unfold promptsShown; simpl;
      rewrite length_app; simpl; lia.
  - unfold secureConnectionCheck_begin. rewrite Hflag, Hlocal, Hhttps, Htok, Hnone.
    unfold promptsShown. simpl. rewrite length_app. simpl. lia.
  - unfold secureConnectionCheck_begin. rewrite Hflag, Hlocal, Hhttps, Htok, Hnone.
    simpl. by rewrite Hflag, lookup_insert_eq.
  - by rewrite (check_asks conn No t).
  - by rewrite (check_asks conn Yes t).
  - by rewrite (check_asks conn Yes t).
  - intros user. rewrite (check_asks conn Yes t) by done. simpl.
    unfold secureConnectionCheck, secureConnectionCheck_begin. simpl.
    rewrite Hlocal, Hhttps, Htok. simpl. rewrite lookup_insert_eq.
    unfold answer. cbn [prompts]. by rewrite !list_lookup_middle.
  - intros conn' user. rewrite (check_asks conn DoNotShowAgain t) by done. simpl.
    by apply check_flag_on.
Qed.

Lemma insecure_connection_prompt_witness :
  let conn := insecureConnection in
  let connect user t := getServerConnectSettings false false conn user (Ok None) t in
  let asked := secureConnectionCheck_begin conn noTrust in
  (∀ user, promptsShown (connect user noTrust).2 = 1) ∧
  (promptsShown asked.2 = 1 ∧
   secureConnectionCheck_begin conn asked.2 = (asked.1, asked.2)) ∧
  (connect No noTrust).1 = Throw InsecureSessionDenied ∧
  ((connect Yes noTrust).1 = connectSettings false false conn (Ok None) ∧
   secureConnectionCheck conn Yes noTrust = (Ok (), (connect Yes noTrust).2) ∧
   ∀ user, secureConnectionCheck conn user (connect Yes noTrust).2
           = (Ok (), (connect Yes noTrust).2)) ∧
  (∀ conn' user, secureConnectionCheck conn' user (connect DoNotShowAgain noTrust).2
                 = (Ok (), (connect DoNotShowAgain noTrust).2)).
Proof.
  apply (insecure_connection_prompt insecureConnection noTrust false false (Ok None));
    reflexivity.
Defined.

(** C10. The trust check asks for the token "null" only.  A remote
    plain-HTTP connection with any other token, the empty one too, passes
    the check with no prompt and no change of state, whereas the password
    branch of getServerConnectSettings takes the empty token and "null"
    alike; with "null" the same connection is asked about. *)
Theorem empty_token_skips_trust_check
    (conn : IJupyterConnection) (user : Response) (t : Trust) :
  localLaunch conn = false →
  startsWith "https" (baseUrl conn) = false →
  let withToken tok :=
    {| baseUrl := baseUrl conn; token := tok; localLaunch := localLaunch conn;
       getAuthHeader := getAuthHeader conn |} in
  (∀ tok, tok ≠ "null" → secureConnectionCheck (withToken tok) user t = (Ok (), t)) ∧
  secureConnectionCheck (withToken "") user t = (Ok (), t) ∧
  tokenMissing (withToken "") = tokenMissing (withToken "null") ∧
  (userAllowsInsecureConnections t = false →
   secureServers t !! baseUrl conn = None →
   promptsShown (secureConnectionCheck (withToken "null") user t).2 = S (promptsShown t) ∧
   (secureConnectionCheck (withToken "null") No t).1 = Throw InsecureSessionDenied).
Proof.
  intros Hlocal Hhttps. cbv zeta. split_and!.
  - intros tok Htok. by apply check_token.
  - by apply check_token.
  - reflexivity.
  - intros Hflag Hnone.
    rewrite !check_asks by done. unfold promptsShown. cbn [snd fst prompts].
    rewrite length_app. simpl. split; [lia | done].
Qed.

Lemma empty_token_skips_trust_check_witness :
  let withToken tok :=
    {| baseUrl := "http://host:8888"; token := tok; localLaunch := false;
       getAuthHeader := false |} in
  (∀ tok, tok ≠ "null" → secureConnectionCheck (withToken tok) Yes noTrust = (Ok (), noTrust)) ∧
  secureConnectionCheck (withToken "") Yes noTrust = (Ok (), noTrust) ∧
  tokenMissing (withToken "") = tokenMissing (withToken "null") ∧
  (userAllowsInsecureConnections noTrust = false →
   secureServers noTrust !! "http://host:8888" = None →
   promptsShown (secureConnectionCheck (withToken "null") Yes noTrust).2 = 1 ∧
   (secureConnectionCheck (withToken "null") No noTrust).1 = Throw InsecureSessionDenied).
Proof.
  apply (empty_token_skips_trust_check insecureConnection Yes noTrust); reflexivity.
Defined.

(** *** getKernelSpecs *)

(** C6. getKernelSpecs on a manager that has its fields, whose specs
    manager holds no spec from an earlier retrieval, when the wait for
    readiness ends without error, so that the refresh is made, and the
    refresh brings no spec: the answer is the one default spec. *)
Theorem getKernelSpecs_default_when_empty
    (createInterpreterKernelSpec : IJupyterKernelSpec)
    (m : Manager) (ready : Race unit) (refresh : Race Specs) :
  usable m = true →
  holdsNoSpecs (specsManager m) = true →
  noError ready = true →
  yieldsNoSpecs refresh = true →
  (getKernelSpecs createInterpreterKernelSpec m ready refresh).1
    = Ok [createInterpreterKernelSpec].
Proof.
  unfold usable, getKernelSpecs. intros Hm Hold Hready Hrefresh.
  repeat (apply andb_prop in Hm as [Hm ?]).
  rewrite Hm. repeat match goal with H : _ = true |- _ => rewrite H end.
  cbn [negb orb].
  destruct ready as [[[]|e]|]; try discriminate;
    destruct (specsManager m) as [[[|s ss]|]|] eqn:Hsm; try discriminate;
    destruct refresh as [[[[|r rs]|]|e]|]; try discriminate;
    cbn; rewrite ?Hsm; reflexivity.
Qed.

(** What the [catch] of getKernelSpecs answers: no spec at all. *)
Lemma getKernelSpecs_caught createInterpreterKernelSpec m ready refresh :
  usable m = true →
  (noError ready = false ∨ (is_Some (specsManager m) ∧ noError refresh = false)) →
  (getKernelSpecs createInterpreterKernelSpec m ready refresh).1 = Ok [].
Proof.
  unfold usable, getKernelSpecs. intros Hm Herr.
  repeat (apply andb_prop in Hm as [Hm ?]).
  rewrite Hm. repeat match goal with H : _ = true |- _ => rewrite H end.
  cbn [negb orb].
  destruct Herr as [Hr | [[sm Hsm] Hr]].
  - by destruct ready as [[[]|e]|].
  - rewrite Hsm. destruct refresh as [[specs|e]|]; try discriminate.
    by destruct ready as [[[]|e']|].
Qed.

Lemma getKernelSpecs_default_when_empty_witness :
  (getKernelSpecs defaultSpec someManager (Settles (Ok ())) (Settles (Ok (Some [])))).1
    = Ok [defaultSpec].
Proof.
  apply (getKernelSpecs_default_when_empty defaultSpec someManager
           (Settles (Ok ())) (Settles (Ok (Some [])))); reflexivity.
Defined.

(** *** getRunningKernels *)

Section RunningKernels.

Variable now : Z.
Variable Date_parse : string -> Z.

Local Abbreviation toJupyterKernel := (toJupyterKernel now Date_parse).
Local Abbreviation getRunningKernels := (getRunningKernels now Date_parse).

Lemma filterDup_keepFirst items : ∀ (dup : gset string) (seen : list string),
  dup = list_to_set seen →
  filterDup dup items = keepFirstById seen items.
Proof.
  induction items as [|item items IH]; intros dup seen ->; simpl; [done|].
  destruct (decide (id item ∈ list_to_set (C:=gset string) seen)) as [Hin|Hnin].
  - rewrite bool_decide_eq_true_2 by (by apply elem_of_list_to_set in Hin).
    by apply IH.
  - rewrite bool_decide_eq_false_2
      by (intros Hin; apply Hnin; by apply elem_of_list_to_set).
    f_equal. apply IH. rewrite list_to_set_app_L. simpl. set_solver.
Qed.

Lemma filterDup_first items : ∀ (dup : gset string) item,
  item ∈ filterDup dup items →
  (id item ∉ dup) ∧ firstOfItsId item items.
Proof.
  induction items as [|x items IH]; intros dup item; simpl.
  - by intros ?%elem_of_nil.
  - destruct (decide (id x ∈ dup)) as [Hin|Hnin].
    + intros [Hd (i & Hi & Hfirst)]%IH. split; [done|].
      exists (S i). split; [done|].
      intros [|j] y Hj Hy; simpl in Hy.
      * simplify_eq. congruence.
      * apply (Hfirst j); [lia | done].
    + intros [->|Hitem]%elem_of_cons.
      * split; [done|]. exists 0. split; [done|]. intros; lia.
      * apply IH in Hitem as [Hd (i & Hi & Hfirst)].
        split; [set_solver|].
        exists (S i). split; [done|].
        intros [|j] y Hj Hy; simpl in Hy.
        -- simplify_eq. set_solver.
        -- apply (Hfirst j); [lia | done].
Qed.

Lemma filterDup_ids items : ∀ (dup : gset string) x,
  x ∈ (id <$> filterDup dup items) ↔ (x ∉ dup) ∧ x ∈ (id <$> items).
Proof.
  induction items as [|y items IH]; intros dup x; simpl.
  - rewrite elem_of_nil. naive_solver.
  - destruct (decide (id y ∈ dup)) as [Hin|Hnin]; simpl;
      rewrite ?elem_of_cons, IH; [naive_solver|].
    destruct (decide (x = id y)); set_solver.
Qed.

Lemma filterDup_NoDup items : ∀ dup : gset string,
  NoDup (id <$> filterDup dup items).
Proof.
  induction items as [|y items IH]; intros dup; simpl; [constructor|].
  destruct (decide (id y ∈ dup)); simpl; [apply IH|].
  constructor; [|apply IH].
  rewrite filterDup_ids. set_solver.
Qed.

(** C9. Of the kernel models the server lists, getRunningKernels
    answers, in their order, those that are the first of their id:
    the ids of the answer are those of the list, each once, and every
    entry stands before any other model of its id.  Models with the ids
    a, a, b give the first and the third. *)
Theorem getRunningKernels_keeps_first_of_each_id (models : list KernelModel) :
  let mapped := toJupyterKernel <$> models in
  ∃ result,
    getRunningKernels (Ok models) = Ok result ∧
    result = keepFirstById [] mapped ∧
    NoDup (id <$> result) ∧
    (∀ x, x ∈ (id <$> result) ↔ x ∈ (km_id <$> models)) ∧
    (∀ item, item ∈ result → firstOfItsId item mapped) ∧
    (∀ m1 m2 m3, models = [m1; m2; m3] → km_id m2 = km_id m1 → km_id m3 ≠ km_id m1 →
                 result = [toJupyterKernel m1; toJupyterKernel m3]).
Proof.
  cbv zeta. eexists. split; [reflexivity|]. split_and!.
  - by apply filterDup_keepFirst.
  - apply filterDup_NoDup.
  - intros x. rewrite filterDup_ids, <- list_fmap_compose.
    split; [by intros [_ ?] | by split; [set_solver|]].
  - intros item Hitem. by apply filterDup_first in Hitem as [_ ?].
  - intros m1 m2 m3 -> H2 H3. simpl.
    rewrite decide_False by set_solver.
    rewrite decide_True by (rewrite H2; set_solver).
    rewrite decide_False by set_solver. done.
Qed.

End RunningKernels.

Example getRunningKernels_a_a_b :
  getRunningKernels 0 (λ _, 1%Z)
    (Ok [{| km_id := "a"; km_name := "python3"; last_activity := None; connections := Some 2%Z |};
         {| km_id := "a"; km_name := "python3"; last_activity := Some "t"; connections := None |};
         {| km_id := "b"; km_name := "julia"; last_activity := None; connections := None |}])
  = Ok [{| id := "a"; k_name := "python3"; lastActivityTime := 0; numberOfConnections := 2 |};
        {| id := "b"; k_name := "julia"; lastActivityTime := 0; numberOfConnections := 0 |}].
Proof. reflexivity. Qed.

End SessionManagerFacts.

(** ** The kernel provider *)

Module KernelProviderFacts.

Import KernelProvider Examples.Kernels.

Section Facts.

Variable InteractiveWindowView : string.
Variable jupyterLaunchTimeout : option string -> nat.

Local Abbreviation getOrCreate := (getOrCreate InteractiveWindowView jupyterLaunchTimeout).
Local Abbreviation construct := (construct InteractiveWindowView jupyterLaunchTimeout).
Local Abbreviation step := (step InteractiveWindowView jupyterLaunchTimeout).
Local Abbreviation run := (run InteractiveWindowView jupyterLaunchTimeout).
Local Abbreviation replaced := (replaced InteractiveWindowView jupyterLaunchTimeout).

Lemma getOrCreate_reuse uri options st info :
  getInternal uri st = Some info →
  metadata_id (KernelProvider.options info) = metadata_id options →
  getOrCreate uri options st = (kernel info, st).
Proof.
  intros Hinfo Hid. unfold KernelProvider.getOrCreate. rewrite Hinfo.
  by rewrite (proj2 (String.eqb_eq _ _) Hid).
Qed.

Lemma getOrCreate_replace uri options st :
  (∀ info, getInternal uri st = Some info →
           metadata_id (KernelProvider.options info) ≠ metadata_id options) →
  getOrCreate uri options st = replaced uri options st.
Proof.
  intros Hdiff. unfold KernelProvider.getOrCreate, replaced.
  destruct (getInternal uri st) as [info|] eqn:Hinfo; [|done].
  by rewrite (proj2 (String.eqb_neq _ _) (Hdiff info eq_refl)).
Qed.

(** The tables do not move the notebooks. *)
Lemma findNotebook_same uri st st' :
  notebookDocuments st' = notebookDocuments st →
  findNotebook uri st' = findNotebook uri st.
Proof. unfold findNotebook. by intros ->. Qed.

Lemma fireDisposed_tables k st :
  notebookDocuments (fireDisposed k st) = notebookDocuments st ∧
  kernelsByNotebook (fireDisposed k st) = kernelsByNotebook st ∧
  kernelsByUri (fireDisposed k st) = kernelsByUri st ∧
  length (kernels (fireDisposed k st)) = length (kernels st).
Proof.
  unfold fireDisposed. destruct (kernels st !! k) as [data|]; [|done].
  destruct (disposed data); [done|]. simpl. by rewrite length_insert.
Qed.

Lemma fireDisposedOf_tables info st :
  notebookDocuments (fireDisposedOf info st) = notebookDocuments st ∧
  kernelsByNotebook (fireDisposedOf info st) = kernelsByNotebook st ∧
  kernelsByUri (fireDisposedOf info st) = kernelsByUri st ∧
  length (kernels (fireDisposedOf info st)) = length (kernels st).
Proof. destruct info; [apply fireDisposed_tables | done]. Qed.

Lemma getInternal_tables uri st st' :
  notebookDocuments st' = notebookDocuments st →
  kernelsByNotebook st' = kernelsByNotebook st →
  kernelsByUri st' = kernelsByUri st →
  getInternal uri st' = getInternal uri st.
Proof.
  intros Hn Hbn Hbu. unfold getInternal.
  rewrite (findNotebook_same uri st st' Hn), Hbn, Hbu. done.
Qed.

Lemma disposeOldKernel_notebooks uri st :
  notebookDocuments (disposeOldKernel uri st) = notebookDocuments st.
Proof.
  unfold disposeOldKernel.
  etrans; [apply fireDisposedOf_tables|]. etrans; [apply fireDisposedOf_tables|]. done.
Qed.

(** What is recorded for an identity is what is found for it. *)
Lemma getInternal_record uri options k st :
  getInternal uri (record uri options k st) = Some {| options := options; kernel := k |}.
Proof.
  unfold getInternal, record, findNotebook. simpl.
  destruct (list_find _ _) as [[nb doc]|]; simpl; by rewrite lookup_insert_eq.
Qed.

Lemma construct_notebooks uri options st :
  notebookDocuments (construct uri options st).2 = notebookDocuments st.
Proof. done. Qed.

Lemma replaced_getInternal uri options st :
  getInternal uri (replaced uri options st).2
  = Some {| options := options; kernel := (replaced uri options st).1 |}.
Proof. unfold replaced. cbv zeta. cbn [fst snd]. apply getInternal_record. Qed.

(** *** The invariant of the tables *)

Lemma set_disposed_id data : disposed data = true → set_disposed data = data.
Proof. destruct data; simpl; by intros ->. Qed.

Lemma fireDisposed_lookup k st j :
  kernels (fireDisposed k st) !! j =
    if decide (j = k) then set_disposed <$> kernels st !! j else kernels st !! j.
Proof.
  unfold fireDisposed. destruct (kernels st !! k) as [data|] eqn:Hk.
  - destruct (disposed data) eqn:Hd; simpl.
    + case_decide; subst; [|done]. rewrite Hk. simpl. by rewrite set_disposed_id.
    + case_decide; subst.
      * rewrite list_lookup_insert_eq by (by eapply lookup_lt_Some). by rewrite Hk.
      * by rewrite list_lookup_insert_ne.
  - case_decide; subst; [|done]. by rewrite Hk.
Qed.

Lemma fireDisposed_trace k st data :
  kernels st !! k = Some data → disposed data = false →
  trace (fireDisposed k st) = trace st ++ [Disposed k].
Proof. intros Hk Hd. unfold fireDisposed. by rewrite Hk, Hd. Qed.

Lemma findNotebook_uri st uri nb doc :
  findNotebook uri st = Some (nb, doc) → nb_uri doc = uri.
Proof. unfold findNotebook. by intros (_ & ? & _)%list_find_Some. Qed.

Lemma findNotebook_inj st u u' nb doc doc' :
  findNotebook u st = Some (nb, doc) → findNotebook u' st = Some (nb, doc') → u = u'.
Proof.
  unfold findNotebook.
  intros (H1 & H2 & _)%list_find_Some (H1' & H2' & _)%list_find_Some. congruence.
Qed.

Lemma getInternal_deleteMapping uri st u :
  getInternal u (deleteMapping uri st) =
    if decide (u = uri) then None else getInternal u st.
Proof.
  unfold getInternal, deleteMapping.
  change (findNotebook u _) with (findNotebook u st).
  cbn [kernelsByNotebook kernelsByUri].
  case_decide as Hu; subst.
  - destruct (findNotebook uri st) as [[nb doc]|]; apply lookup_delete_eq.
  - destruct (findNotebook u st) as [[nb' doc']|] eqn:Hf'.
    + destruct (findNotebook uri st) as [[nb doc]|] eqn:Hf; [|done].
      apply lookup_delete_ne. intros ->. by apply Hu, (findNotebook_inj st _ _ _ _ _ Hf' Hf).
    + by apply lookup_delete_ne.
Qed.

Lemma getInternal_record_any uri options k st u :
  getInternal u (record uri options k st) =
    if decide (u = uri) then Some {| options := options; kernel := k |}
    else getInternal u st.
Proof.
  case_decide as Hu; subst; [apply getInternal_record|].
  unfold getInternal, record.
  change (findNotebook u _) with (findNotebook u st).
  cbn [kernelsByNotebook kernelsByUri].
  destruct (findNotebook u st) as [[nb' doc']|] eqn:Hf'.
  - destruct (findNotebook uri st) as [[nb doc]|] eqn:Hf; [|done].
    apply lookup_insert_ne. intros ->. by apply Hu, (findNotebook_inj st _ _ _ _ _ Hf' Hf).
  - destruct (findNotebook uri st) as [[nb doc]|]; [done|]. by apply lookup_insert_ne.
Qed.

Lemma getInternal_fireDisposedOf info st u :
  getInternal u (fireDisposedOf info st) = getInternal u st.
Proof. apply getInternal_tables; apply fireDisposedOf_tables. Qed.

(** Under the invariant the old kernel is the one the identity maps to. *)
Lemma disposeOldKernel_visible uri st :
  Inv st →
  disposeOldKernel uri st = fireDisposedOf (getInternal uri st) (deleteMapping uri st).
Proof.
  intros HI. unfold disposeOldKernel, getInternal.
  destruct (findNotebook uri st) as [[nb doc]|] eqn:Hf.
  - destruct (kernelsByUri st !! uri) as [info|] eqn:Hu; [|done].
    apply (inv_byUri st HI) in Hu. congruence.
  - done.
Qed.

Lemma disposeOldKernel_length uri st :
  length (kernels (disposeOldKernel uri st)) = length (kernels st).
Proof.
  unfold disposeOldKernel.
  etrans; [apply fireDisposedOf_tables|]. etrans; [apply fireDisposedOf_tables|]. done.
Qed.

Lemma disposeOldKernel_byUri uri st :
  kernelsByUri (disposeOldKernel uri st) = delete uri (kernelsByUri st).
Proof.
  unfold disposeOldKernel.
  etrans; [apply fireDisposedOf_tables|]. etrans; [apply fireDisposedOf_tables|]. done.
Qed.

Lemma disposeOldKernel_byNotebook uri st :
  kernelsByNotebook (disposeOldKernel uri st) =
    match findNotebook uri st with
    | Some (nb, _) => delete nb (kernelsByNotebook st)
    | None => kernelsByNotebook st
    end.
Proof.
  unfold disposeOldKernel.
  etrans; [apply fireDisposedOf_tables|]. etrans; [apply fireDisposedOf_tables|]. done.
Qed.

Lemma disposeOldKernel_lookup uri st j :
  Inv st →
  kernels (disposeOldKernel uri st) !! j =
    match getInternal uri st with
    | Some info => if decide (j = kernel info) then set_disposed <$> kernels st !! j
                   else kernels st !! j
    | None => kernels st !! j
    end.
Proof.
  intros HI. rewrite disposeOldKernel_visible by done.
  destruct (getInternal uri st) as [info|]; simpl; [|done].
  by rewrite fireDisposed_lookup.
Qed.

Lemma disposeOldKernel_getInternal uri st u :
  getInternal u (disposeOldKernel uri st) =
    if decide (u = uri) then None else getInternal u st.
Proof.
  etrans; [|apply getInternal_deleteMapping].
  apply getInternal_tables.
  - exact (disposeOldKernel_notebooks uri st).
  - exact (disposeOldKernel_byNotebook uri st).
  - exact (disposeOldKernel_byUri uri st).
Qed.

(** The old kernel is disposed when the new one is constructed. *)
Lemma disposeOldKernel_disposes uri st info data :
  Inv st →
  getInternal uri st = Some info →
  kernels (disposeOldKernel uri st) !! kernel info = Some data →
  disposed data = true.
Proof.
  intros HI Hinfo. rewrite disposeOldKernel_lookup, Hinfo, decide_True by done.
  destruct (kernels st !! kernel info); simpl; [|done]. by intros [= <-].
Qed.

Lemma disposeOldKernel_trace uri st info :
  Inv st →
  getInternal uri st = Some info →
  trace (disposeOldKernel uri st) = trace st ++ [Disposed (kernel info)].
Proof.
  intros HI Hinfo. rewrite disposeOldKernel_visible, Hinfo by done. simpl.
  destruct (inv_mapped st HI uri info Hinfo) as (data & Hk & _ & Hd).
  by rewrite (fireDisposed_trace _ _ data).
Qed.

Lemma disposeOldKernel_trace_none uri st :
  Inv st →
  getInternal uri st = None →
  trace (disposeOldKernel uri st) = trace st.
Proof. intros HI Hinfo. by rewrite disposeOldKernel_visible, Hinfo. Qed.

Lemma replaced_fst uri options st :
  (replaced uri options st).1 = length (kernels st).
Proof. unfold replaced. cbv zeta. cbn [fst]. apply disposeOldKernel_length. Qed.

Lemma replaced_getInternal_any uri options st u :
  getInternal u (replaced uri options st).2 =
    if decide (u = uri)
    then Some {| options := options; kernel := length (kernels st) |}
    else getInternal u st.
Proof.
  unfold replaced. cbv zeta. cbn [snd]. rewrite getInternal_record_any.
  rewrite disposeOldKernel_length. case_decide; [done|].
  etrans; [|etrans; [apply (disposeOldKernel_getInternal uri st u)|]].
  - by apply getInternal_tables.
  - by rewrite decide_False.
Qed.

Lemma replaced_lookup_old uri options st j :
  j < length (kernels st) →
  kernels (replaced uri options st).2 !! j = kernels (disposeOldKernel uri st) !! j.
Proof.
  intros Hj. unfold replaced. cbv zeta. cbn [snd record kernels construct].
  apply lookup_app_l. by rewrite disposeOldKernel_length.
Qed.

Lemma replaced_lookup_new uri options st :
  ∃ data, kernels (replaced uri options st).2 !! length (kernels st) = Some data ∧
          k_uri data = uri ∧ disposed data = false ∧
          k_metadata_id data = metadata_id options.
Proof.
  unfold replaced. cbv zeta. cbn [snd record kernels construct].
  rewrite <- (disposeOldKernel_length uri st).
  eexists. split; [apply list_lookup_middle; done | done].
Qed.

Lemma replaced_length uri options st :
  length (kernels (replaced uri options st).2) = S (length (kernels st)).
Proof.
  unfold replaced. cbv zeta. cbn [snd record kernels construct].
  rewrite length_app, disposeOldKernel_length. simpl. lia.
Qed.

Lemma replaced_trace uri options st :
  trace (replaced uri options st).2 =
    trace (disposeOldKernel uri st)
      ++ [Constructed (length (kernels st)); Recorded uri (length (kernels st))].
Proof.
  unfold replaced. cbv zeta. cbn [snd record trace construct].
  rewrite disposeOldKernel_length. by rewrite <- app_assoc.
Qed.

Lemma replaced_notebooks uri options st :
  notebookDocuments (replaced uri options st).2 = notebookDocuments st.
Proof. exact (disposeOldKernel_notebooks uri st). Qed.

Lemma replaced_findNotebook uri options st :
  findNotebook uri (construct uri options (disposeOldKernel uri st)).2 = findNotebook uri st.
Proof. apply findNotebook_same. exact (disposeOldKernel_notebooks uri st). Qed.

Lemma replaced_byUri uri options st :
  kernelsByUri (replaced uri options st).2 =
    match findNotebook uri st with
    | Some _ => delete uri (kernelsByUri st)
    | None => <[uri := {| options := options; kernel := length (kernels st) |}]>
                (delete uri (kernelsByUri st))
    end.
Proof.
  unfold replaced, record. cbv zeta. cbn [snd kernelsByUri].
  rewrite replaced_findNotebook, disposeOldKernel_length.
  change (kernelsByUri (construct _ _ ?s).2) with (kernelsByUri s).
  by rewrite disposeOldKernel_byUri.
Qed.

Lemma replaced_byNotebook uri options st :
  kernelsByNotebook (replaced uri options st).2 =
    match findNotebook uri st with
    | Some (nb, _) => <[nb := {| options := options; kernel := length (kernels st) |}]>
                        (delete nb (kernelsByNotebook st))
    | None => kernelsByNotebook st
    end.
Proof.
  unfold replaced, record. cbv zeta. cbn [snd kernelsByNotebook].
  rewrite replaced_findNotebook, disposeOldKernel_length.
  change (kernelsByNotebook (construct _ _ ?s).2) with (kernelsByNotebook s).
  rewrite disposeOldKernel_byNotebook.
  by destruct (findNotebook uri st) as [[nb doc]|].
Qed.

Lemma Inv_init notebooks : Inv (init notebooks).
Proof.
  split.
  - intros k data Hk. simpl in Hk. by rewrite lookup_nil in Hk.
  - intros uri info. unfold getInternal. simpl.
    destruct (findNotebook uri (init notebooks)) as [[nb doc]|]; by rewrite lookup_empty.
  - intros uri info. simpl. by rewrite lookup_empty.
  - intros nb info. simpl. by rewrite lookup_empty.
Qed.

(** Two identities do not map to one kernel. *)
Lemma Inv_mapped_inj st u u' info info' :
  Inv st →
  getInternal u st = Some info → getInternal u' st = Some info' →
  kernel info = kernel info' → u = u'.
Proof.
  intros HI Hu Hu' Hk.
  destruct (inv_mapped st HI u info Hu) as (data & Hd & <- & _).
  destruct (inv_mapped st HI u' info' Hu') as (data' & Hd' & <- & _).
  congruence.
Qed.

Lemma replaced_Inv uri options st : Inv st → Inv (replaced uri options st).2.
Proof.
  intros HI. split.
  - intros k data Hk Hlive. unfold get. rewrite replaced_getInternal_any.
    destruct (decide (k = length (kernels st))) as [->|Hne].
    + destruct (replaced_lookup_new uri options st) as (data' & Hk' & Huri & _).
      simplify_eq. by rewrite decide_True.
    + assert (k < length (kernels st)) as Hlt.
      { apply lookup_lt_Some in Hk. rewrite replaced_length in Hk. lia. }
      rewrite replaced_lookup_old, disposeOldKernel_lookup in Hk by done.
      assert (kernels st !! k = Some data ∧
              ∀ info, getInternal uri st = Some info → kernel info ≠ k) as [Hk0 Hold].
      { destruct (getInternal uri st) as [info|]; [|by split].
        case_decide as Hki; [|split; [done | by intros ? [= <-]]].
        destruct (kernels st !! k); simplify_eq/=. }
      pose proof (inv_live st HI k data Hk0 Hlive) as Hget.
      unfold get in Hget. case_decide as Hu; [|done].
      rewrite Hu in Hget. destruct (getInternal uri st) as [info|]; simplify_eq/=.
      by destruct (Hold info eq_refl).
  - intros u info. rewrite replaced_getInternal_any.
    case_decide as Hu; [subst u|].
    + intros [= <-]. simpl.
      destruct (replaced_lookup_new uri options st) as (data & Hk & Huri & Hd & _).
      eauto.
    + intros Hinfo. destruct (inv_mapped st HI u info Hinfo) as (data & Hk & Huri & Hd).
      exists data. split_and!; [|done..].
      rewrite replaced_lookup_old by (by eapply lookup_lt_Some).
      rewrite disposeOldKernel_lookup by done.
      destruct (getInternal uri st) as [old|] eqn:Hold; [|done].
      rewrite decide_False; [done|].
      intros Hk'. apply Hu. by apply (Inv_mapped_inj st u uri info old).
  - intros u info. rewrite replaced_byUri, (findNotebook_same u st) by apply replaced_notebooks.
    destruct (findNotebook uri st) as [[nb doc]|] eqn:Hf.
    + intros [_ Hu]%lookup_delete_Some. by apply (inv_byUri st HI u info).
    + intros [[<- _]|[_ [_ Hu]%lookup_delete_Some]]%lookup_insert_Some; [done|].
      by apply (inv_byUri st HI u info).
  - intros nb' info. rewrite replaced_byNotebook.
    assert (∀ doc, findNotebook (nb_uri doc) (replaced uri options st).2
                   = findNotebook (nb_uri doc) st) as Hsame
      by (intros; apply findNotebook_same, replaced_notebooks).
    destruct (findNotebook uri st) as [[nb doc]|] eqn:Hf.
    + intros [[<- _]|[_ [_ Hu]%lookup_delete_Some]]%lookup_insert_Some.
      * exists doc. by rewrite Hsame, (findNotebook_uri st uri nb doc Hf).
      * destruct (inv_byNotebook st HI nb' info Hu) as [doc' Hdoc'].
        exists doc'. by rewrite Hsame.
    + intros Hu. destruct (inv_byNotebook st HI nb' info Hu) as [doc' Hdoc'].
      exists doc'. by rewrite Hsame.
Qed.

Lemma getOrCreate_Inv uri options st : Inv st → Inv (getOrCreate uri options st).2.
Proof.
  intros HI. destruct (getInternal uri st) as [info|] eqn:Hinfo.
  - destruct (decide (metadata_id (KernelProvider.options info) = metadata_id options))
      as [Heq|Hne].
    + by rewrite (getOrCreate_reuse _ _ _ _ Hinfo Heq).
    + rewrite getOrCreate_replace by (intros ? ?; simplify_eq; done).
      by apply replaced_Inv.
  - rewrite getOrCreate_replace by (intros ? ?; simplify_eq).
    by apply replaced_Inv.
Qed.

Lemma kernel_dispose_Inv k st : Inv st → Inv (kernel_dispose k st).
Proof.
  intros HI. unfold kernel_dispose.
  destruct (kernels st !! k) as [data|] eqn:Hk; [|done].
  assert (get (k_uri data) (fireDisposed k st) = get (k_uri data) st) as Hget.
  { unfold get. f_equal. apply getInternal_tables; apply fireDisposed_tables. }
  rewrite Hget. destruct (disposed data) eqn:Hd.
  - assert (fireDisposed k st = st) as -> by (unfold fireDisposed; by rewrite Hk, Hd).
    rewrite bool_decide_eq_false_2; [done|].
    unfold get. intros Hm. destruct (getInternal (k_uri data) st) as [info|] eqn:Hinfo;
      simplify_eq/=.
    destruct (inv_mapped st HI _ _ Hinfo) as (data' & Hk' & _ & Hd'). congruence.
  - rewrite bool_decide_eq_true_2 by (by apply (inv_live st HI)).
    assert (∀ u, getInternal u (deleteMapping (k_uri data) (fireDisposed k st)) =
                 if decide (u = k_uri data) then None else getInternal u st) as Hgi.
    { intros u. rewrite getInternal_deleteMapping. case_decide; [done|].
      apply getInternal_tables; apply fireDisposed_tables. }
    assert (∀ j, kernels (deleteMapping (k_uri data) (fireDisposed k st)) !! j =
                 if decide (j = k) then Some (set_disposed data) else kernels st !! j) as Hks.
    { intros j. cbn [deleteMapping kernels]. rewrite fireDisposed_lookup.
      case_decide; subst; [by rewrite Hk | done]. }
    assert (∀ u, findNotebook u (deleteMapping (k_uri data) (fireDisposed k st))
                 = findNotebook u st) as Hfn.
    { intros u. apply findNotebook_same. cbn [deleteMapping notebookDocuments].
      apply fireDisposed_tables. }
    split.
    + intros j dj. rewrite Hks. case_decide as Hj; [by intros [= <-]|].
      intros Hdj Hlive. pose proof (inv_live st HI j dj Hdj Hlive) as Hgj.
      unfold get. rewrite Hgi. case_decide as Hu; [|done].
      rewrite Hu in Hgj. rewrite (inv_live st HI k data Hk Hd) in Hgj. congruence.
    + intros u info. rewrite Hgi. case_decide as Hu; [done|]. intros Hinfo.
      destruct (inv_mapped st HI u info Hinfo) as (data' & Hk' & Huri & Hd').
      exists data'. split_and!; [|done..]. rewrite Hks.
      rewrite decide_False; [done|]. intros Hki. rewrite Hki in Hk'. congruence.
    + intros u info. rewrite Hfn. cbn [deleteMapping kernelsByUri].
      rewrite (proj1 (proj2 (proj2 (fireDisposed_tables k st)))).
      intros [_ Hu]%lookup_delete_Some. by apply (inv_byUri st HI u info).
    + intros nb info. cbn [deleteMapping kernelsByNotebook].
      change (findNotebook ?x (fireDisposed k st)) with
        (list_find (λ nb, nb_uri nb = x) (notebookDocuments (fireDisposed k st))).
      rewrite (proj1 (fireDisposed_tables k st)).
      rewrite (proj1 (proj2 (fireDisposed_tables k st))).
      fold (findNotebook (k_uri data) st).
      intros Hnb.
      assert (kernelsByNotebook st !! nb = Some info) as Hnb'.
      { destruct (findNotebook (k_uri data) st) as [[nb' doc']|]; [|done].
        by apply lookup_delete_Some in Hnb as [_ ?]. }
      destruct (inv_byNotebook st HI nb info Hnb') as [doc Hdoc].
      exists doc. by rewrite Hfn.
Qed.

Lemma step_Inv a st : Inv st → Inv (step a st).
Proof.
  destruct a as [uri options | k]; simpl.
  - apply getOrCreate_Inv.
  - apply kernel_dispose_Inv.
Qed.

(** The invariant holds whatever is asked of a provider, as long as no
    notebook document is opened or closed. *)
Lemma run_Inv acts : ∀ st, Inv st → Inv (run acts st).
Proof.
  induction acts as [|a acts IH]; intros st HI; simpl; [done|].
  by apply IH, step_Inv.
Qed.

Lemma elem_of_liveKernels uri st k :
  k ∈ liveKernels uri st ↔
  ∃ data, kernels st !! k = Some data ∧ k_uri data = uri ∧ disposed data = false.
Proof.
  unfold liveKernels, isLive. rewrite list_elem_of_filter, elem_of_seq.
  destruct (kernels st !! k) as [data|] eqn:Hk.
  - rewrite andb_true_iff, bool_decide_eq_true, negb_true_iff.
    apply lookup_lt_Some in Hk. split.
    + intros [[? ?] _]. by exists data.
    + intros (data' & [= <-] & ? & ?). split; [done | lia].
  - split; [by intros [? _] | by intros (? & ? & _)].
Qed.

Lemma NoDup_liveKernels uri st : NoDup (liveKernels uri st).
Proof. apply NoDup_filter, NoDup_seq. Qed.

Lemma liveKernels_mapped uri st k :
  Inv st → k ∈ liveKernels uri st ↔ get uri st = Some k.
Proof.
  intros HI. rewrite elem_of_liveKernels. split.
  - intros (data & Hk & <- & Hd). by apply (inv_live st HI).
  - unfold get. destruct (getInternal uri st) as [info|] eqn:Hinfo; [|done].
    intros [= <-]. by apply (inv_mapped st HI).
Qed.

Lemma liveKernels_only (l : list nat) x : NoDup l → (∀ k, k ∈ l ↔ k = x) → l = [x].
Proof.
  intros Hnd Hl. apply Permutation_singleton_r, NoDup_Permutation;
    [done | apply NoDup_singleton |].
  intros k. rewrite Hl. set_solver.
Qed.

(** At most one kernel of an identity is alive. *)
Lemma liveKernels_at_most_one uri st : Inv st → (length (liveKernels uri st) ≤ 1)%nat.
Proof.
  intros HI. destruct (get uri st) as [k|] eqn:Hget.
  - rewrite (liveKernels_only (liveKernels uri st) k); [simpl; lia | apply NoDup_liveKernels |].
    intros k'. rewrite liveKernels_mapped, Hget by done. naive_solver.
  - rewrite (elem_of_nil_inv (liveKernels uri st)); [simpl; lia|].
    intros k'. rewrite liveKernels_mapped, Hget by done. done.
Qed.

(** Once the old kernel is disposed, no kernel of the identity is alive. *)
Lemma disposeOldKernel_none_live uri st k data :
  Inv st →
  kernels (disposeOldKernel uri st) !! k = Some data →
  k_uri data = uri → disposed data = true.
Proof.
  intros HI Hk Huri. rewrite disposeOldKernel_lookup in Hk by done.
  destruct (disposed data) eqn:Hd; [done|].
  assert (kernels st !! k = Some data ∧
          ∀ info, getInternal uri st = Some info → kernel info ≠ k) as [Hk0 Hold].
  { destruct (getInternal uri st) as [info|]; [|by split].
    case_decide as Hki; [|split; [done | by intros ? [= <-]]].
    destruct (kernels st !! k); simplify_eq/=. }
  pose proof (inv_live st HI k data Hk0 Hd) as Hget. rewrite Huri in Hget.
  unfold get in Hget. destruct (getInternal uri st) as [info|]; simplify_eq/=.
  by destruct (Hold info eq_refl).
Qed.

(** C3. Two calls of getOrCreate in a row for the same identity and the
    same connection id: the second answers the kernel of the first and
    leaves the provider as it is, so it constructs nothing. *)
Theorem getOrCreate_idempotent
    (uri : string) (options1 options2 : KernelOptions) (st : State) :
  metadata_id options2 = metadata_id options1 →
  let first := getOrCreate uri options1 st in
  let second := getOrCreate uri options2 first.2 in
  second.1 = first.1 ∧ second.2 = first.2 ∧
  kernels second.2 = kernels first.2 ∧
  get uri second.2 = Some first.1.
Proof.
  intros Hid. cbv zeta.
  assert (∃ info, getInternal uri (getOrCreate uri options1 st).2 = Some info ∧
                  kernel info = (getOrCreate uri options1 st).1 ∧
                  metadata_id (KernelProvider.options info) = metadata_id options1)
    as (info & Hinfo & Hk & Hm).
  { destruct (getInternal uri st) as [info|] eqn:Hinfo.
    - destruct (decide (metadata_id (KernelProvider.options info) = metadata_id options1))
        as [Heq|Hne].
      + rewrite (getOrCreate_reuse _ _ _ _ Hinfo Heq). by exists info.
      + rewrite getOrCreate_replace by (intros ? ?; simplify_eq; done).
        eexists. split; [apply replaced_getInternal | done].
    - rewrite getOrCreate_replace by (intros ? ?; simplify_eq).
      eexists. split; [apply replaced_getInternal | done]. }
  rewrite (getOrCreate_reuse uri options2 _ info Hinfo) by congruence.
  cbn [fst snd]. unfold get. rewrite Hinfo. simpl. by rewrite Hk.
Qed.

(** C2. getOrCreate for an identity whose kernel has another connection
    id: the old kernel is disposed, then the new one is constructed and
    then recorded.  After each of the three steps at most one kernel of
    the identity is alive: none, then the new one.  Afterwards the
    identity maps to the new kernel, which is not the old one, and the
    tables agree with the kernels again. *)
Theorem getOrCreate_switches_kernel
    (uri : string) (options : KernelOptions) (st : State) (info : KernelInfo) :
  Inv st →
  getInternal uri st = Some info →
  metadata_id (KernelProvider.options info) ≠ metadata_id options →
  let old := kernel info in
  let st1 := disposeOldKernel uri st in
  let st2 := (construct uri options st1).2 in
  let result := getOrCreate uri options st in
  result.2 = record uri options result.1 st2 ∧
  trace result.2 = trace st ++ [Disposed old; Constructed result.1; Recorded uri result.1] ∧
  liveKernels uri st = [old] ∧
  liveKernels uri st1 = [] ∧
  liveKernels uri st2 = [result.1] ∧
  liveKernels uri result.2 = [result.1] ∧
  get uri result.2 = Some result.1 ∧
  result.1 ≠ old ∧
  Inv result.2.
Proof.
  intros HI Hinfo Hne. cbv zeta.
  rewrite getOrCreate_replace by (intros ? ?; simplify_eq; done).
  pose proof (replaced_Inv uri options st HI) as HI3.
  assert (get uri (replaced uri options st).2 = Some (length (kernels st))) as Hget.
  { unfold get. by rewrite replaced_getInternal_any, decide_True. }
  assert (get uri st = Some (kernel info)) as Hold by (unfold get; by rewrite Hinfo).
  rewrite replaced_fst.
  split_and!.
  - unfold replaced. cbv zeta. cbn [snd]. by rewrite disposeOldKernel_length.
  - rewrite replaced_trace, (disposeOldKernel_trace uri st info) by done.
    by rewrite <- app_assoc.
  - apply liveKernels_only; [apply NoDup_liveKernels|].
    intros k. rewrite liveKernels_mapped, Hold by done. naive_solver.
  - apply elem_of_nil_inv. intros k (data & Hk & Huri & Hd)%elem_of_liveKernels.
    rewrite (disposeOldKernel_none_live uri st k data) in Hd; done.
  - apply liveKernels_only; [apply NoDup_liveKernels|].
    intros k. rewrite elem_of_liveKernels. cbn [construct snd kernels].
    rewrite <- (disposeOldKernel_length uri st). split.
    + intros (data & [Hk|[Hk Hnew]]%lookup_app_Some & Huri & Hd).
      * rewrite (disposeOldKernel_none_live uri st k data) in Hd; done.
      * apply list_lookup_singleton_Some in Hnew as [Hk0 _]. lia.
    + intros ->. eexists. split; [apply list_lookup_middle; done | done].
  - apply liveKernels_only; [apply NoDup_liveKernels|].
    intros k. rewrite liveKernels_mapped, Hget by done. naive_solver.
  - done.
  - destruct (inv_mapped st HI uri info Hinfo) as (data & Hk & _).
    apply lookup_lt_Some in Hk. lia.
  - done.
Qed.

End Facts.

Lemma getOrCreate_idempotent_witness :
  let first := getOrCreate "interactive" timeout "/work/a.ipynb" python (init notebooks) in
  let second := getOrCreate "interactive" timeout "/work/a.ipynb" pythonAgain first.2 in
  second.1 = first.1 ∧ second.2 = first.2 ∧
  kernels second.2 = kernels first.2 ∧
  get "/work/a.ipynb" second.2 = Some first.1.
Proof.
  apply (getOrCreate_idempotent "interactive" timeout "/work/a.ipynb" python pythonAgain
           (init notebooks)).
  reflexivity.
Defined.

Lemma getOrCreate_switches_kernel_witness :
  let result := getOrCreate "interactive" timeout "/work/a.ipynb" julia withK1 in
  let st1 := disposeOldKernel "/work/a.ipynb" withK1 in
  let st2 := (construct "interactive" timeout "/work/a.ipynb" julia st1).2 in
  result.2 = record "/work/a.ipynb" julia result.1 st2 ∧
  trace result.2 = trace withK1 ++ [Disposed 0; Constructed result.1;
                                    Recorded "/work/a.ipynb" result.1] ∧
  liveKernels "/work/a.ipynb" withK1 = [0] ∧
  liveKernels "/work/a.ipynb" st1 = [] ∧
  liveKernels "/work/a.ipynb" st2 = [result.1] ∧
  liveKernels "/work/a.ipynb" result.2 = [result.1] ∧
  get "/work/a.ipynb" result.2 = Some result.1 ∧
  result.1 ≠ 0 ∧
  Inv result.2.
Proof.
  apply (getOrCreate_switches_kernel "interactive" timeout "/work/a.ipynb" julia withK1
           {| options := python; kernel := 0 |}).
  - apply getOrCreate_Inv, Inv_init.
  - reflexivity.
  - discriminate.
Defined.

End KernelProviderFacts.

(** ** The remote kernel finder *)

Module RemoteKernelFinderFacts.

Import SessionManager RemoteKernelFinder Examples.Finder.

Lemma earliest_elem_of (l : list (nat * Error)) :
  l ≠ [] → ∃ t e, earliest l = Some (t, e) ∧ (t, e) ∈ l.
Proof.
  induction l as [|[t e] l IH]; [done|]. intros _. simpl.
  destruct l as [|p l].
  - exists t, e. split; [done | by left].
  - destruct IH as (t' & e' & -> & Hin); [done|].
    destruct (Nat.ltb t' t).
    + exists t', e'. split; [done | by right].
    + exists t, e. split; [done | by left].
Qed.

Lemma elem_of_rejection {A} (p : Timed A) t e :
  (t, e) ∈ rejection p → outcome p = Throw e.
Proof.
  unfold rejection. destruct (outcome p); [by intros ?%elem_of_nil|].
  by intros [= _ ->]%list_elem_of_singleton.
Qed.

(** [Promise.all] rejects as soon as one of the three does, with the
    error of one of them. *)
Lemma promiseAll3_rejects {A B C} (a : Timed A) (b : Timed B) (c : Timed C) :
  (∃ e, outcome a = Throw e) ∨ (∃ e, outcome b = Throw e) ∨ (∃ e, outcome c = Throw e) →
  ∃ e, promiseAll3 a b c = Throw e ∧
       (outcome a = Throw e ∨ outcome b = Throw e ∨ outcome c = Throw e).
Proof.
  intros Hrej.
  assert (rejection a ++ rejection b ++ rejection c ≠ []) as Hne.
  { unfold rejection. destruct Hrej as [[e ->]|[[e ->]|[e ->]]]; simpl;
      repeat case_match; done. }
  destruct (earliest_elem_of _ Hne) as (t & e & Hearly & Hin).
  exists e. split.
  - unfold promiseAll3. rewrite Hearly.
    destruct Hrej as [[e' ->]|[[e' ->]|[e' ->]]]; repeat case_match; done.
  - rewrite !elem_of_app in Hin.
    destruct Hin as [Hin|[Hin|Hin]]; apply elem_of_rejection in Hin; eauto.
Qed.

Lemma initialize_usable failOnPassword allowUnauthorized conn user pw t m :
  (initialize failOnPassword allowUnauthorized conn user pw t).1 = Ok m →
  connInfo m = Some conn ∧ sessionManager m = true ∧ contentsManager m = true.
Proof.
  unfold initialize.
  destruct (getServerConnectSettings _ _ _ _ _ _) as [[settings|e] t']; simpl; [|done].
  by intros [= <-].
Qed.

Lemma getKernelSpecs_answers createInterpreterKernelSpec m ready refresh :
  is_Some (connInfo m) → sessionManager m = true → contentsManager m = true →
  ∃ specs, (getKernelSpecs createInterpreterKernelSpec m ready refresh).1 = Ok specs.
Proof.
  intros Hc Hs Hm. unfold getKernelSpecs.
  rewrite (bool_decide_eq_true_2 _ Hc), Hs, Hm. cbn [negb orb].
  repeat case_match; simpl; eauto.
Qed.

Section Facts.

Variable now : Z.
Variable Date_parse : string -> Z.
Variable createInterpreterKernelSpec : IJupyterKernelSpec.
Variable getKernelId : IJupyterKernelSpec -> string -> string.
Variable URL_hostname : string -> option string.
Variable toLocaleLowerCase : string -> string.
Variable getInterpreterDetails : option string -> Result (option string).

Local Abbreviation listKernels :=
  (listKernels now Date_parse createInterpreterKernelSpec getKernelId URL_hostname
     toLocaleLowerCase getInterpreterDetails).

(** C8, as the code has it.  Without a Jupyter connection listKernels
    answers the empty sequence.  With one, an error of the creation of
    the session manager reaches the caller as it is; and once the
    manager is there, when listing the running kernels or the running
    sessions fails, the manager is disposed and the caller gets the
    error of one of the two. *)
Theorem listKernels_propagates_failures
    (kernelIdsToHide : gset string) (c : IJupyterConnection) (w : World) (t : Trust) :
  let result := listKernels kernelIdsToHide (Some (Jupyter c)) w t in
  listKernels kernelIdsToHide None w t = (Ok [], t, []) ∧
  listKernels kernelIdsToHide (Some Raw) w t = (Ok [], t, []) ∧
  (∀ e, (create w c t).1 = Throw e → result = (Throw e, (create w c t).2, [])) ∧
  (∀ m, (create w c t).1 = Ok m →
     result.2 = [ManagerCreated; ManagerDisposed] ∧
     ((∃ e, outcome (listRunning w) = Throw e) ∨ (∃ e, outcome (refreshRunning w) = Throw e) →
      ∃ e, result.1.1 = Throw e ∧
           (outcome (listRunning w) = Throw e ∨ outcome (refreshRunning w) = Throw e))).
Proof.
  cbv zeta. split_and!; [done | done | |].
  - intros e He. unfold RemoteKernelFinder.listKernels.
    destruct (create w c t) as [[m|e'] t']; simplify_eq/=. done.
  - intros m Hm. unfold RemoteKernelFinder.listKernels.
    pose proof (initialize_usable _ _ _ _ _ _ _ Hm) as (Hc & Hs & Hcm).
    destruct (create w c t) as [[m'|e'] t'] eqn:Hcreate; simplify_eq/=.
    split; [done|]. intros Hrej.
    destruct (getKernelSpecs_answers createInterpreterKernelSpec m (ready w) (refresh w))
      as [specs Hspecs]; [by rewrite Hc | done | done |].
    set (running := {| settledAt := settledAt (listRunning w);
                       outcome := getRunningKernels now Date_parse (outcome (listRunning w)) |}).
    set (specsP := {| settledAt := specsAt w;
                      outcome := (getKernelSpecs createInterpreterKernelSpec m
                                    (ready w) (refresh w)).1 |}).
    set (sessions := {| settledAt := settledAt (refreshRunning w);
                        outcome := getRunningSessions m (outcome (refreshRunning w)) |}).
    destruct (promiseAll3_rejects running specsP sessions) as (e & -> & Hwhich).
    { unfold running, sessions, getRunningSessions. simpl. rewrite Hs. simpl.
      destruct Hrej as [[e ->]|[e ->]]; eauto. }
    exists e. split; [done|].
    unfold running, specsP, sessions, getRunningSessions in Hwhich. simpl in Hwhich.
    rewrite Hs, Hspecs in Hwhich. simpl in Hwhich.
    destruct Hwhich as [Hr|[?|?]]; [|done|by right].
    left. unfold getRunningKernels in Hr.
    destruct (outcome (listRunning w)); [done | by simplify_eq].
Qed.

End Facts.

(** C8 fails: the listing of the running kernels fails, and listKernels
    throws that error instead of answering the empty sequence. *)
Lemma listKernels_throws :
  listing.1.1 = Throw (External "ECONNREFUSED") ∧ listing.1.1 ≠ Ok [].
Proof. split; [reflexivity | discriminate]. Qed.

End RemoteKernelFinderFacts.


(** ** More on the server cache *)

Module ServerCacheOpsFacts.

Import ServerCache ServerCacheOps Examples.Cache.

Section Facts.

Variable cwd : option string -> option string.

Local Abbreviation keyOf := (keyOf cwd).
Local Abbreviation getOrCreate_begin := (getOrCreate_begin cwd).
Local Abbreviation get := (get cwd).
Local Abbreviation generateDefaultOptions := (generateDefaultOptions cwd).
Local Abbreviation apply := (apply cwd).
Local Abbreviation applyAll := (applyAll cwd).
Local Abbreviation Consistent := (Consistent cwd).

Lemma begin_cases o st :
  (∃ data, cache st !! keyOf o = Some data ∧ getOrCreate_begin o st = (promise data, st)) ∨
  (cache st !! keyOf o = None ∧
   getOrCreate_begin o st =
     (length (calls st),
      {| cache := <[keyOf o := {| options := generateDefaultOptions o;
                                  promise := length (calls st);
                                  resolved := false |}]> (cache st);
         calls := calls st ++ [o];
         disposers := disposers st |})).
Proof.
  destruct (cache st !! keyOf o) as [data|] eqn:Hk.
  - left. exists data. split; [done|]. by apply ServerCacheFacts.begin_hit.
  - right. split; [done|]. by apply ServerCacheFacts.begin_miss.
Qed.

(** X1. What getOrCreate caches, get finds: after a call, get with any
    options of the same key answers the promise the call is chained on;
    get for another key answers what it answered before; and get for a
    key that is not cached answers nothing. *)
Theorem get_finds_what_getOrCreate_cached (o o' other : INotebookServerOptions) (st : State) :
  keyOf o' = keyOf o →
  keyOf other ≠ keyOf o →
  let called := getOrCreate_begin o st in
  get o' called.2 = Some called.1 ∧
  get other called.2 = get other st ∧
  (cache st !! keyOf o = None → get o' st = None).
Proof.
  intros Hkey Hother. cbv zeta. unfold ServerCache.get. rewrite Hkey.
  destruct (begin_cases o st) as [(data & Hd & ->)|[Hd ->]]; cbn [fst snd cache].
  - rewrite Hd. split_and!; [done | done | congruence].
  - rewrite lookup_insert_eq, lookup_insert_ne by done. rewrite Hd. done.
Qed.

(** X2. Once the promise cached for a key has given a server, the entry
    stays and is marked resolved: a later call with the key is chained on
    the same promise and calls nothing. *)
Theorem getOrCreate_reuses_resolved_server
    (o o' : INotebookServerOptions) (server : nat) (data : IServerData) (st : State) :
  keyOf o' = keyOf o →
  cache st !! keyOf o = Some data →
  let settled := getOrCreate_settled (keyOf o) (promise data) (Fulfilled (Some server)) st in
  let again := getOrCreate_begin o' settled.2 in
  settled.1 = Fulfilled (Some server) ∧
  resolved <$> cache settled.2 !! keyOf o = Some true ∧
  again.1 = promise data ∧
  again.2 = settled.2 ∧
  calls again.2 = calls st.
Proof.
  intros Hkey Hd. cbv zeta. cbn [getOrCreate_settled fst snd].
  set (st1 := {| cache := alter (mark_resolved (promise data)) (keyOf o) (cache st);
                 calls := calls st;
                 disposers := <[server:=keyOf o :: default [] (disposers st !! server)]>
                                (disposers st) |}).
  assert (cache st1 !! keyOf o' = Some (mark_resolved (promise data) data)) as Hd1.
  { rewrite Hkey. unfold st1. cbn [cache]. by rewrite lookup_alter_eq, Hd. }
  rewrite (ServerCacheFacts.begin_hit cwd o' st1 _ Hd1). cbn [fst snd].
  rewrite <- Hkey, Hd1. unfold mark_resolved. rewrite decide_True by done. done.
Qed.

Lemma delete_all_lookup (keys : list string) : ∀ (c : gmap string IServerData) key,
  foldl (λ c k, delete k c) c keys !! key =
    if bool_decide (key ∈ keys) then None else c !! key.
Proof.
  induction keys as [|k keys IH]; intros c key; cbn [foldl].
  - case_bool_decide as Hin; [by apply elem_of_nil in Hin | done].
  - rewrite IH. destruct (decide (key = k)) as [->|Hne].
    + rewrite lookup_delete_eq. repeat case_bool_decide; try done; set_solver.
    + rewrite lookup_delete_ne by done. repeat case_bool_decide; try done; set_solver.
Qed.

Lemma settled_registers_key key p server st :
  key ∈ default [] (disposers (getOrCreate_settled key p (Fulfilled (Some server)) st).2 !! server).
Proof. cbn [getOrCreate_settled snd disposers]. rewrite lookup_insert_eq. by left. Qed.

Lemma dispose_server_gone key server st :
  key ∈ default [] (disposers st !! server) →
  cache (dispose_server server st) !! key = None.
Proof.
  intros Hreg. unfold dispose_server. cbn [set_cache cache].
  by rewrite delete_all_lookup, bool_decide_eq_true_2.
Qed.

(** X3. Disposing a server that a call resolved to takes the entry of its
    key out of the cache, so get answers nothing for the key and the next
    call with the key calls the creation function again. *)
Theorem server_dispose_evicts_entry
    (o o' : INotebookServerOptions) (p server : nat) (st : State) :
  keyOf o' = keyOf o →
  let settled := (getOrCreate_settled (keyOf o) p (Fulfilled (Some server)) st).2 in
  let gone := dispose_server server settled in
  let next := getOrCreate_begin o' gone in
  cache gone !! keyOf o = None ∧
  get o' gone = None ∧
  calls next.2 = calls st ++ [o'] ∧
  next.1 = length (calls st).
Proof.
  intros Hkey. cbv zeta.
  set (settled := (getOrCreate_settled (keyOf o) p (Fulfilled (Some server)) st).2).
  assert (cache (dispose_server server settled) !! keyOf o = None) as Hgone
    by apply dispose_server_gone, settled_registers_key.
  split; [done|]. unfold ServerCache.get. rewrite Hkey, Hgone.
  split; [done|]. rewrite <- Hkey in Hgone.
  by rewrite (ServerCacheFacts.begin_miss cwd o' _ Hgone).
Qed.

(** X4. The wrapped dispose deletes by key, not by entry.  When a server
    once cached under a key is disposed again while a newer promise for
    the key is pending, the pending entry goes too, and the next call with
    the key calls the creation function once more. *)
Theorem stale_dispose_evicts_pending_entry
    (o o' : INotebookServerOptions) (p server : nat) (st : State) :
  keyOf o' = keyOf o →
  let settled := (getOrCreate_settled (keyOf o) p (Fulfilled (Some server)) st).2 in
  let newer := getOrCreate_begin o (dispose_server server settled) in
  let again := getOrCreate_begin o' (dispose_server server newer.2) in
  get o newer.2 = Some newer.1 ∧
  cache (dispose_server server newer.2) !! keyOf o = None ∧
  again.1 ≠ newer.1 ∧
  calls again.2 = calls st ++ [o; o'].
Proof.
  intros Hkey. cbv zeta.
  set (gone := dispose_server server
                 (getOrCreate_settled (keyOf o) p (Fulfilled (Some server)) st).2).
  assert (cache gone !! keyOf o = None) as Hgone
    by apply dispose_server_gone, settled_registers_key.
  rewrite (ServerCacheFacts.begin_miss cwd o gone Hgone). cbn [fst snd].
  set (newer := {| cache := _; calls := calls gone ++ [o]; disposers := disposers gone |}).
  assert (cache (dispose_server server newer) !! keyOf o = None) as Hgone2
    by apply dispose_server_gone, settled_registers_key.
  split; [unfold ServerCache.get, newer; cbn [cache]; by rewrite lookup_insert_eq|].
  split; [done|]. rewrite <- Hkey in Hgone2.
  rewrite (ServerCacheFacts.begin_miss cwd o' _ Hgone2). cbn [fst snd].
  change (calls (dispose_server server newer)) with (calls st ++ [o]).
  change (calls gone) with (calls st).
  rewrite length_app. simpl. split; [lia|]. by rewrite <- app_assoc.
Qed.

Lemma Consistent_shrinks st st' :
  calls st' = calls st →
  (∀ key data, cache st' !! key = Some data →
     ∃ data', cache st !! key = Some data' ∧
              promise data' = promise data ∧ options data' = options data) →
  Consistent st → Consistent st'.
Proof.
  intros Hcalls Hsub HC key data Hd.
  destruct (Hsub key data Hd) as (data' & Hd' & Hp & Ho).
  destruct (HC key data' Hd') as (o & Hcall & Hkey & Hopt).
  exists o. rewrite Hcalls, <- Hp, <- Ho. done.
Qed.

Lemma apply_Consistent op st : Consistent st → Consistent (apply op st).
Proof.
  intros HC. destruct op as [o | key p r | server | |]; cbn [ServerCacheOps.apply].
  - destruct (begin_cases o st) as [(data & Hd & ->)|[Hd ->]]; [done|]. cbn [snd].
    intros key data. cbn [cache calls].
    destruct (decide (key = keyOf o)) as [->|Hne].
    + rewrite lookup_insert_eq. intros [= <-]. exists o. cbn [promise options].
      by rewrite list_lookup_middle.
    + rewrite lookup_insert_ne by done. intros Hd'.
      destruct (HC key data Hd') as (o' & Hcall & Hkey & Hopt).
      exists o'. split_and!; [|done..]. by apply lookup_app_l_Some.
  - apply (Consistent_shrinks st); [by destruct r as [[s|]|e]| |done].
    intros k data. destruct r as [[s|]|e]; cbn [getOrCreate_settled snd cache set_cache].
    + destruct (decide (k = key)) as [->|Hne].
      * rewrite lookup_alter_eq. destruct (cache st !! key) as [d|]; [|done].
        intros [= <-]. exists d. split; [done|]. unfold mark_resolved. by case_decide.
      * rewrite lookup_alter_ne by done. eauto.
    + intros [_ ?]%lookup_delete_Some. eauto.
    + intros [_ ?]%lookup_delete_Some. eauto.
  - apply (Consistent_shrinks st); [done| |done].
    intros k data. unfold dispose_server. cbn [set_cache cache].
    rewrite delete_all_lookup. case_bool_decide; [done | eauto].
  - intros key data. cbn. by rewrite lookup_empty.
  - intros key data. cbn. by rewrite lookup_empty.
Qed.

(** X5. Whatever is done to a cache, calls, settled promises, disposed
    servers, clearCache and dispose, in any order: every entry sits under
    the key of the call that created its promise and holds the normalized
    options of that call, so its own options give its key back, and no
    promise is cached under two keys. *)
Theorem cache_entries_stay_consistent (ops : list Op) :
  let st := applyAll ops init in
  Consistent st ∧
  (∀ key data, cache st !! key = Some data →
     promise data < length (calls st) ∧ generateKey (options data) = key) ∧
  (∀ key key' data data', cache st !! key = Some data → cache st !! key' = Some data' →
     promise data = promise data' → key = key').
Proof.
  cbv zeta.
  assert (Consistent (applyAll ops init)) as HC.
  { assert (Consistent init) as Hinit by (intros key data; cbn; by rewrite lookup_empty).
    revert Hinit. generalize init. induction ops as [|op ops IH]; intros st HC; [done|].
    cbn. by apply IH, apply_Consistent. }
  split; [done|]. split.
  - intros key data Hd. destruct (HC key data Hd) as (o & Hcall & Hkey & Hopt).
    split; [by eapply lookup_lt_Some|]. by rewrite Hopt.
  - intros key key' data data' Hd Hd' Hp.
    destruct (HC key data Hd) as (o & Hcall & <- & _).
    destruct (HC key' data' Hd') as (o' & Hcall' & <- & _).
    congruence.
Qed.

(** X6. Normalizing options a second time changes nothing, so normalized
    options have the key of the options they come from, and get with them
    finds what getOrCreate cached for the original ones. *)
Theorem generateDefaultOptions_idempotent (o : INotebookServerOptions) (st : State) :
  let fixedOptions := generateDefaultOptions o in
  generateDefaultOptions fixedOptions = fixedOptions ∧
  keyOf fixedOptions = keyOf o ∧
  get fixedOptions (getOrCreate_begin o st).2 = Some (getOrCreate_begin o st).1.
Proof.
  cbv zeta.
  assert (generateDefaultOptions (generateDefaultOptions o) = generateDefaultOptions o) as Hidem.
  { unfold ServerCache.generateDefaultOptions. cbn [uri resource skipUsingDefaultConfig
      workingDir disableUI localJupyter].
    destruct (truthy (workingDir o)) eqn:Hw.
    - by rewrite Hw.
    - by destruct (truthy (cwd (resource o))). }
  assert (keyOf (generateDefaultOptions o) = keyOf o) as Hkey
    by (unfold ServerCache.keyOf; by rewrite Hidem).
  split; [done|]. split; [done|].
  unfold ServerCache.get. rewrite Hkey.
  destruct (begin_cases o st) as [(data & Hd & ->)|[Hd ->]]; cbn [fst snd cache].
  - by rewrite Hd.
  - by rewrite lookup_insert_eq.
Qed.

(** X7. dispose empties the cache and hands every entry to the
    disposal; a second dispose finds the flag set and does nothing; and as
    getOrCreate never looks at the flag, a call after dispose caches a new
    promise, which the disposal of a server that was in the cache under
    the same key then evicts. *)
Theorem dispose_clears_but_does_not_close
    (o : INotebookServerOptions) (p server : nat) (oldDispose : Result unit) (st : State) :
  let settled := (getOrCreate_settled (keyOf o) p (Fulfilled (Some server)) st).2 in
  let disposing := dispose_begin false settled in
  let late := getOrCreate_begin o disposing.2 in
  let disposed := dispose_entry (Some (Fulfilled (Some server))) oldDispose late.2 in
  disposing.1 = (true, cache settled) ∧
  cache disposing.2 = ∅ ∧
  dispose_begin true disposing.2 = (true, ∅, disposing.2) ∧
  late.1 = length (calls st) ∧
  get o late.2 = Some late.1 ∧
  get o disposed.2 = None.
Proof.
  cbv zeta. cbn [dispose_begin fst snd].
  set (settled := (getOrCreate_settled (keyOf o) p (Fulfilled (Some server)) st).2).
  assert (cache (set_cache ∅ settled) !! keyOf o = None) as Hmiss by apply lookup_empty.
  rewrite (ServerCacheFacts.begin_miss cwd o _ Hmiss). cbn [fst snd dispose_entry].
  split_and!; [done | done | done | done | |].
  - unfold ServerCache.get. cbn [cache]. by rewrite lookup_insert_eq.
  - unfold ServerCache.get. rewrite dispose_server_gone; [done|].
    apply settled_registers_key.
Qed.


End Facts.

Lemma get_finds_what_getOrCreate_cached_witness :
  let cwd := noWorkingDirectory in
  let called := ServerCache.getOrCreate_begin cwd options1 init in
  ServerCache.get cwd options2 called.2 = Some called.1 ∧
  ServerCache.get cwd otherOptions called.2 = ServerCache.get cwd otherOptions init ∧
  (cache init !! ServerCache.keyOf cwd options1 = None → ServerCache.get cwd options2 init = None).
Proof.
  apply (get_finds_what_getOrCreate_cached noWorkingDirectory options1 options2 otherOptions init).
  - reflexivity.
  - discriminate.
Defined.

Lemma getOrCreate_reuses_resolved_server_witness :
  let cwd := noWorkingDirectory in
  let first := ServerCache.getOrCreate_begin cwd options1 init in
  let settled := getOrCreate_settled (ServerCache.keyOf cwd options1) 0
                   (Fulfilled (Some 7)) first.2 in
  let again := ServerCache.getOrCreate_begin cwd options2 settled.2 in
  settled.1 = Fulfilled (Some 7) ∧
  resolved <$> cache settled.2 !! ServerCache.keyOf cwd options1 = Some true ∧
  again.1 = 0 ∧
  again.2 = settled.2 ∧
  calls again.2 = calls first.2.
Proof.
  apply (getOrCreate_reuses_resolved_server noWorkingDirectory options1 options2 7
           {| options := ServerCache.generateDefaultOptions noWorkingDirectory options1;
              promise := 0; resolved := false |}
           (ServerCache.getOrCreate_begin noWorkingDirectory options1 init).2).
  - reflexivity.
  - reflexivity.
Defined.

Lemma server_dispose_evicts_entry_witness :
  let cwd := noWorkingDirectory in
  let first := (ServerCache.getOrCreate_begin cwd options1 init).2 in
  let settled := (getOrCreate_settled (ServerCache.keyOf cwd options1) 0
                    (Fulfilled (Some 7)) first).2 in
  let gone := dispose_server 7 settled in
  let next := ServerCache.getOrCreate_begin cwd options2 gone in
  cache gone !! ServerCache.keyOf cwd options1 = None ∧
  ServerCache.get cwd options2 gone = None ∧
  calls next.2 = calls first ++ [options2] ∧
  next.1 = length (calls first).
Proof.
  apply (server_dispose_evicts_entry noWorkingDirectory options1 options2 0 7
           (ServerCache.getOrCreate_begin noWorkingDirectory options1 init).2).
  reflexivity.
Defined.

Lemma stale_dispose_evicts_pending_entry_witness :
  let cwd := noWorkingDirectory in
  let first := (ServerCache.getOrCreate_begin cwd options1 init).2 in
  let settled := (getOrCreate_settled (ServerCache.keyOf cwd options1) 0
                    (Fulfilled (Some 7)) first).2 in
  let newer := ServerCache.getOrCreate_begin cwd options1 (dispose_server 7 settled) in
  let again := ServerCache.getOrCreate_begin cwd options2 (dispose_server 7 newer.2) in
  ServerCache.get cwd options1 newer.2 = Some newer.1 ∧
  cache (dispose_server 7 newer.2) !! ServerCache.keyOf cwd options1 = None ∧
  again.1 ≠ newer.1 ∧
  calls again.2 = calls first ++ [options1; options2].
Proof.
  apply (stale_dispose_evicts_pending_entry noWorkingDirectory options1 options2 0 7
           (ServerCache.getOrCreate_begin noWorkingDirectory options1 init).2).
  reflexivity.
Defined.

End ServerCacheOpsFacts.

(** ** More on the session manager *)

Module ConnectionsFacts.

Import SessionManager Connections Examples.Sessions.

(** *** The trust decisions of a process *)

Lemma insecure_spec conn :
  insecure conn = true ↔
  localLaunch conn = false ∧ startsWith "https" (baseUrl conn) = false ∧ token conn = "null".
Proof.
  unfold insecure. rewrite !andb_true_iff, !negb_true_iff, String.eqb_eq. tauto.
Qed.

Lemma check_secure conn user t :
  insecure conn = false → secureConnectionCheck conn user t = (Ok (), t).
Proof.
  unfold insecure, secureConnectionCheck, secureConnectionCheck_begin. intros Hsec.
  destruct (userAllowsInsecureConnections t); [done|].
  destruct (localLaunch conn), (startsWith "https" (baseUrl conn)),
    (String.eqb (token conn) "null"); simpl in *; done.
Qed.

(** The check of a connection whose promise is cached and settled. *)
Lemma check_cached conn user t p r :
  userAllowsInsecureConnections t = false →
  insecure conn = true →
  secureServers t !! baseUrl conn = Some p →
  prompts t !! p = Some (Some r) →
  secureConnectionCheck conn user t =
    (if promptValue r then Ok () else Throw InsecureSessionDenied, t).
Proof.
  intros Hflag (Hlocal & Hhttps & Htok)%insecure_spec Hp Hr.
  unfold secureConnectionCheck, secureConnectionCheck_begin.
  rewrite Hflag, Hlocal, Hhttps, Htok, Hp. simpl. rewrite Hr.
  unfold answer. by rewrite Hr.
Qed.

(** A check leaves the decisions taken before it as they are. *)
Lemma check_keeps_decision conn user t url p r :
  secureServers t !! url = Some p →
  prompts t !! p = Some (Some r) →
  secureServers (secureConnectionCheck conn user t).2 !! url = Some p ∧
  prompts (secureConnectionCheck conn user t).2 !! p = Some (Some r).
Proof.
  intros Hp Hr. unfold secureConnectionCheck, secureConnectionCheck_begin.
  destruct (userAllowsInsecureConnections t); [done|].
  destruct (localLaunch conn || startsWith "https" (baseUrl conn)
            || negb (String.eqb (token conn) "null")); [done|].
  destruct (secureServers t !! baseUrl conn) as [q|] eqn:Hq; cbn [snd].
  - unfold answer. destruct (prompts t !! q) as [[r'|]|] eqn:Hr'; [done| |done].
    cbn. split; [done|]. rewrite list_lookup_insert_ne; [done|]. congruence.
  - pose proof (lookup_lt_Some _ _ _ Hr) as Hlt.
    unfold insecureServerWarningPrompt, answer. cbn.
    rewrite list_lookup_middle by done. cbn. split.
    + rewrite lookup_insert_ne; [done|]. congruence.
    + rewrite list_lookup_insert_ne by lia. by apply lookup_app_l_Some.
Qed.

(** Only the answer "do not show again" turns the global flag on. *)
Lemma check_keeps_flag conn user t :
  user ≠ DoNotShowAgain →
  userAllowsInsecureConnections (secureConnectionCheck conn user t).2
  = userAllowsInsecureConnections t.
Proof.
  intros Huser. unfold secureConnectionCheck, secureConnectionCheck_begin.
  destruct (userAllowsInsecureConnections t) eqn:Hflag; [done|].
  destruct (localLaunch conn || startsWith "https" (baseUrl conn)
            || negb (String.eqb (token conn) "null")); [done|].
  destruct (secureServers t !! baseUrl conn) as [q|]; cbn [snd].
  - unfold answer. destruct (prompts t !! q) as [[r'|]|]; [done| |done].
    cbn. by destruct user.
  - unfold insecureServerWarningPrompt, answer. cbn.
    rewrite list_lookup_middle by done. cbn. by destruct user.
Qed.

Lemma checkAll_keeps_decision conns : ∀ t url p r,
  secureServers t !! url = Some p →
  prompts t !! p = Some (Some r) →
  secureServers (checkAll conns t).2 !! url = Some p ∧
  prompts (checkAll conns t).2 !! p = Some (Some r) ∧
  (Forall (λ c, c.2 ≠ DoNotShowAgain) conns →
   userAllowsInsecureConnections (checkAll conns t).2 = userAllowsInsecureConnections t).
Proof.
  induction conns as [|[conn user] conns IH]; intros t url p r Hp Hr; cbn [checkAll].
  - done.
  - destruct (check_keeps_decision conn user t url p r Hp Hr) as [Hp1 Hr1].
    pose proof (check_keeps_flag conn user t) as Hflag.
    destruct (secureConnectionCheck conn user t) as [res t1]. cbn [snd] in *.
    destruct (IH t1 url p r Hp1 Hr1) as (Hp2 & Hr2 & Hflag2).
    destruct (checkAll conns t1) as [rs t2]. cbn [snd] in *.
    split_and!; [done | done |].
    intros Hall. inversion Hall as [|? ? Huser Hrest]; subst.
    rewrite Hflag2 by done. by apply Hflag.
Qed.

(** X8. A refusal is remembered like a consent.  After the user answers
    No to the prompt of a base URL, or dismisses it, and after any number
    of other checks, a connection to that base URL with the token "null"
    is refused again without a prompt, whatever the user would now answer,
    as long as the global flag is off; and the flag is off as long as no
    prompt was answered with "do not show again".  Once the flag is on,
    the refused base URL connects like any other. *)
Theorem denial_is_cached (conn again : IJupyterConnection) (first later : Response)
    (others : list (IJupyterConnection * Response)) (t : Trust) :
  userAllowsInsecureConnections t = false →
  insecure conn = true →
  secureServers t !! baseUrl conn = None →
  promptValue first = false →
  insecure again = true →
  baseUrl again = baseUrl conn →
  let denied := secureConnectionCheck conn first t in
  let since := (checkAll others denied.2).2 in
  denied.1 = Throw InsecureSessionDenied ∧
  secureConnectionCheck again later since =
    (if userAllowsInsecureConnections since then Ok () else Throw InsecureSessionDenied,
     since) ∧
  (Forall (λ c, c.2 ≠ DoNotShowAgain) others → userAllowsInsecureConnections since = false).
Proof.
  intros Hflag Hins Hnone Hfirst Hagain Hurl. cbv zeta.
  pose proof Hins as (Hlocal & Hhttps & Htok)%insecure_spec.
  rewrite (SessionManagerFacts.check_asks conn first t) by done. cbn [fst snd].
  rewrite Hfirst.
  set (denied := {| userAllowsInsecureConnections := _; secureServers := _; prompts := _ |}).
  assert (userAllowsInsecureConnections denied = false) as Hoff by by destruct first.
  destruct (checkAll_keeps_decision others denied (baseUrl conn) (length (prompts t)) first)
    as (Hp & Hr & Hkept).
  { apply lookup_insert_eq. }
  { by apply list_lookup_middle. }
  split_and!; [done | | by intros ?; rewrite Hkept].
  destruct (userAllowsInsecureConnections (checkAll others denied).2) eqn:Hsince.
  - by apply SessionManagerFacts.check_flag_on.
  - rewrite (check_cached again later _ (length (prompts t)) first); try done.
    + by rewrite Hfirst.
    + by rewrite Hurl.
Qed.

Lemma denial_is_cached_witness :
  let denied := secureConnectionCheck insecureConnection Dismissed noTrust in
  let since := (checkAll [(otherInsecureConnection, Yes); (secureConnection, No)] denied.2).2 in
  denied.1 = Throw InsecureSessionDenied ∧
  secureConnectionCheck insecureConnection Yes since = (Throw InsecureSessionDenied, since).
Proof.
  pose proof (denial_is_cached insecureConnection insecureConnection Dismissed Yes
                [(otherInsecureConnection, Yes); (secureConnection, No)] noTrust
                eq_refl eq_refl eq_refl eq_refl eq_refl eq_refl) as (Hdenied & Hagain & _).
  split; [exact Hdenied | exact Hagain].
Defined.

(** X9. Trust is given to a base URL, not to the user's servers at large:
    after a Yes for one base URL, the first connection to another one is
    asked about again, and a No there leaves the first one trusted. *)
Theorem trust_is_per_base_url (conn other : IJupyterConnection) (user : Response) (t : Trust) :
  userAllowsInsecureConnections t = false →
  insecure conn = true →
  insecure other = true →
  baseUrl other ≠ baseUrl conn →
  secureServers t !! baseUrl conn = None →
  secureServers t !! baseUrl other = None →
  let trusted := (secureConnectionCheck conn Yes t).2 in
  let refused := secureConnectionCheck other No trusted in
  promptsShown refused.2 = S (S (promptsShown t)) ∧
  refused.1 = Throw InsecureSessionDenied ∧
  secureConnectionCheck conn user refused.2 = (Ok (), refused.2) ∧
  secureConnectionCheck other user refused.2 = (Throw InsecureSessionDenied, refused.2).
Proof.
  intros Hflag Hins Hother Hne Hnone Hnone'. cbv zeta.
  pose proof Hins as (Hlocal & Hhttps & Htok)%insecure_spec.
  pose proof Hother as (Hlocal' & Hhttps' & Htok')%insecure_spec.
  rewrite (SessionManagerFacts.check_asks conn Yes t) by done. cbn [fst snd].
  rewrite (SessionManagerFacts.check_asks other No) by (cbn; by rewrite ?lookup_insert_ne).
  cbn [fst snd prompts secureServers promptValue]. split_and!.
  - unfold promptsShown. cbn. rewrite !length_app. simpl. lia.
  - done.
  - erewrite (check_cached conn user _ (length (prompts t)) Yes); cbn; try done.
    + rewrite lookup_insert_ne by done. by rewrite lookup_insert_eq.
    + by apply lookup_app_l_Some, list_lookup_middle.
  - erewrite (check_cached other user _ (length (prompts t ++ [Some Yes])) No); cbn; try done.
    + by rewrite lookup_insert_eq.
    + by apply list_lookup_middle.
Qed.

Lemma trust_is_per_base_url_witness :
  let trusted := (secureConnectionCheck insecureConnection Yes noTrust).2 in
  let refused := secureConnectionCheck otherInsecureConnection No trusted in
  promptsShown refused.2 = 2 ∧
  refused.1 = Throw InsecureSessionDenied ∧
  secureConnectionCheck insecureConnection Yes refused.2 = (Ok (), refused.2) ∧
  secureConnectionCheck otherInsecureConnection Yes refused.2
    = (Throw InsecureSessionDenied, refused.2).
Proof.
  apply (trust_is_per_base_url insecureConnection otherInsecureConnection Yes noTrust);
    try reflexivity. discriminate.
Defined.

(** One check keeps the bookkeeping of prompts and promises. *)
Lemma check_OnePromptPerUrl conn user t :
  OnePromptPerUrl t → OnePromptPerUrl (secureConnectionCheck conn user t).2.
Proof.
  intros (Hsize & Hanswered & Hinj).
  destruct (userAllowsInsecureConnections t) eqn:Hflag;
    [by rewrite SessionManagerFacts.check_flag_on|].
  destruct (insecure conn) eqn:Hins; [|by rewrite check_secure].
  destruct (secureServers t !! baseUrl conn) as [p|] eqn:Hp.
  - destruct (Hanswered _ _ Hp) as [r Hr].
    by rewrite (check_cached conn user t p r).
  - pose proof Hins as (Hlocal & Hhttps & Htok)%insecure_spec.
    rewrite (SessionManagerFacts.check_asks conn user t) by done.
    cbn [snd]. split_and!; cbn [secureServers prompts].
    + rewrite map_size_insert_None by done. rewrite length_app. simpl. lia.
    + intros url q [[<- <-]|[Hne Hq]]%lookup_insert_Some.
      * exists user. by apply list_lookup_middle.
      * destruct (Hanswered _ _ Hq) as [r Hr]. exists r. by apply lookup_app_l_Some.
    + intros url url' q Hq Hq'.
      apply lookup_insert_Some in Hq as [[<- <-]|[Hne Hq]];
        apply lookup_insert_Some in Hq' as [[<- Heq]|[Hne' Hq']]; try done.
      * destruct (Hanswered _ _ Hq') as [r Hr%lookup_lt_Some]. lia.
      * destruct (Hanswered _ _ Hq) as [r Hr%lookup_lt_Some]. lia.
      * by apply (Hinj url url' q).
Qed.

Lemma check_cached_urls conn user t url :
  url ∈ dom (secureServers (secureConnectionCheck conn user t).2) →
  url ∈ dom (secureServers t) ∨ (url = baseUrl conn ∧ insecure conn = true).
Proof.
  unfold secureConnectionCheck, secureConnectionCheck_begin.
  destruct (userAllowsInsecureConnections t); [by left|].
  destruct (insecure conn) eqn:Hins.
  - apply insecure_spec in Hins as (-> & -> & ->). simpl.
    destruct (secureServers t !! baseUrl conn) as [p|] eqn:Hp; cbn [snd].
    + unfold answer. repeat case_match; cbn; by left.
    + unfold answer. cbn. repeat case_match; cbn; rewrite ?dom_insert_L; set_solver.
  - unfold insecure in Hins.
    destruct (localLaunch conn), (startsWith "https" (baseUrl conn)),
      (String.eqb (token conn) "null"); simpl in *; try done; by left.
Qed.

Lemma checkAll_from conns : ∀ t,
  OnePromptPerUrl t →
  length (checkAll conns t).1 = length conns ∧
  OnePromptPerUrl (checkAll conns t).2 ∧
  ∀ url, url ∈ dom (secureServers (checkAll conns t).2) →
         url ∈ dom (secureServers t) ∨
         ∃ conn, conn ∈ conns.*1 ∧ baseUrl conn = url ∧ insecure conn = true.
Proof.
  induction conns as [|[conn user] conns IH]; intros t HI; cbn [checkAll].
  - split_and!; [done | done | by left].
  - destruct (secureConnectionCheck conn user t) as [r t1] eqn:Hcheck.
    assert (t1 = (secureConnectionCheck conn user t).2) as Ht1 by by rewrite Hcheck.
    destruct (IH t1) as (Hlen & HI2 & Hurls);
      [rewrite Ht1; by apply check_OnePromptPerUrl|].
    destruct (checkAll conns t1) as [rs t2]. cbn [fst snd] in *.
    split_and!; [cbn; by rewrite Hlen | done |].
    intros url [Hold|(c' & Hin & Hurl & Hins)]%Hurls.
    + rewrite Ht1 in Hold. apply check_cached_urls in Hold as [?|[-> Hins]]; [by left|].
      right. exists conn. split; [cbn; by left | done].
    + right. exists c'. split; [cbn; by right | done].
Qed.

(** X10. However many connections a process makes and whatever the user
    answers, from the start of the process on: the prompts shown are as
    many as the base URLs with a cached decision, each prompt was answered
    and belongs to one base URL, and a decision is cached only for the base
    URL of a connection that is remote, plain HTTP and has the token
    "null".  So no base URL is asked about twice. *)
Theorem one_prompt_per_base_url (conns : list (IJupyterConnection * Response)) :
  let done := checkAll conns noTrust in
  length done.1 = length conns ∧
  promptsShown done.2 = size (secureServers done.2) ∧
  OnePromptPerUrl done.2 ∧
  (∀ url, url ∈ dom (secureServers done.2) →
     ∃ conn, conn ∈ conns.*1 ∧ baseUrl conn = url ∧ insecure conn = true).
Proof.
  cbv zeta.
  assert (OnePromptPerUrl noTrust) as Hinit.
  { split_and!; [done | |]; intros *; cbn; by rewrite lookup_empty. }
  destruct (checkAll_from conns noTrust Hinit) as (Hlen & HI & Hurls).
  split_and!; [done | symmetry; apply HI | done |].
  intros url [Hold|?]%Hurls; [|done]. cbn in Hold. set_solver.
Qed.

End ConnectionsFacts.

(** ** More on connection settings, kernel specs and disposal *)

Module SessionManagerMoreFacts.

Import SessionManager Examples.Sessions.

(** *** String replacement *)

Lemma prefix_app (pat rest : string) : String.prefix pat (pat +:+ rest) = true.
Proof.
  induction pat as [|c pat IH]; [by destruct rest|]. simpl.
  destruct (Ascii.ascii_dec c c); [done | congruence].
Qed.

Lemma substring_all (s : string) : String.substring 0 (String.length s) s = s.
Proof. induction s as [|c s IH]; [done|]. simpl. by rewrite IH. Qed.

Lemma substring_app (pat rest : string) :
  String.substring (String.length pat) (String.length (pat +:+ rest) - String.length pat)
    (pat +:+ rest) = rest.
Proof.
  induction pat as [|c pat IH].
  - simpl. rewrite Nat.sub_0_r. apply substring_all.
  - exact IH.
Qed.

(** A string that starts with the pattern has that occurrence replaced,
    and no other. *)
Lemma replace_prefix (pat rep rest : string) :
  replace pat rep (pat +:+ rest) = rep +:+ rest.
Proof.
  destruct (pat +:+ rest) eqn:Hs; cbn [replace]; rewrite <- Hs.
  - by rewrite prefix_app, substring_app.
  - by rewrite prefix_app, substring_app.
Qed.

(** *** Connection settings *)



(** X12. The settings fail to be made only on the password branch, that
    is for a token that is empty or "null" with no auth header: with
    failOnPassword at once and whatever the password provider would say,
    otherwise when the provider throws or has nothing to offer.  A
    provider that offers anything gives settings. *)
Theorem connectSettings_failures
    (failOnPassword allowUnauthorized : bool) (conn : IJupyterConnection)
    (pw : Result (option IJupyterPasswordConnectInfo)) :
  (tokenMissing conn = false →
     ∃ settings, connectSettings failOnPassword allowUnauthorized conn pw = Ok settings) ∧
  (tokenMissing conn = true → failOnPassword = true →
     connectSettings failOnPassword allowUnauthorized conn pw = Throw PasswordRequestNotAllowed) ∧
  (tokenMissing conn = true → failOnPassword = false →
     match pw with
     | Throw e => connectSettings failOnPassword allowUnauthorized conn pw = Throw e
     | Ok None => connectSettings failOnPassword allowUnauthorized conn pw = Throw PasswordFailure
     | Ok (Some info) =>
         ∃ settings, connectSettings failOnPassword allowUnauthorized conn pw = Ok settings ∧
                     s_appendToken settings = false ∧
                     s_token settings =
                       match requestHeaders info with
                       | Some _ => if truthy (remappedToken info)
                                   then show (remappedToken info) else ""
                       | None => token conn
                       end
     end).
Proof.
  unfold connectSettings. split_and!.
  - intros ->. eauto.
  - by intros -> ->.
  - intros -> ->. destruct pw as [[info|]|e]; [|done..].
    destruct (requestHeaders info); eauto.
Qed.

(** X13. The web socket URL is the base URL with its first "http" turned
    into "ws": an "http://..." base URL gives "ws://...", an "https://..."
    one "wss://...". *)
Theorem wsUrl_of_http_base (failOnPassword allowUnauthorized : bool)
    (conn : IJupyterConnection) (pw : Result (option IJupyterPasswordConnectInfo))
    (rest : string) (settings : Settings) :
  baseUrl conn = "http" +:+ rest →
  tokenMissing conn = false →
  connectSettings failOnPassword allowUnauthorized conn pw = Ok settings →
  s_baseUrl settings = "http" +:+ rest ∧ s_wsUrl settings = "ws" +:+ rest.
Proof.
  unfold connectSettings. intros Hbase -> [= <-]. cbn [s_baseUrl s_wsUrl].
  rewrite Hbase. split; [done|]. apply (replace_prefix "http" "ws" rest).
Qed.

Lemma wsUrl_of_http_base_witness :
  ∃ settings,
    connectSettings false true secureConnection (Ok None) = Ok settings ∧
    s_baseUrl settings = "https://host:8888" ∧ s_wsUrl settings = "wss://host:8888".
Proof.
  eexists. split; [reflexivity|].
  apply (wsUrl_of_http_base false true secureConnection (Ok None) "s://host:8888");
    reflexivity.
Defined.

(** *** initialize *)

(** X14. A connection that brings a token, one that is neither empty nor
    "null", is initialized without any question: no trust prompt, no
    password request, whatever failOnPassword says.  The settings carry the
    token and the base URL as given, and the manager has all its fields,
    so that startNew gets as far as connecting and getKernelSpecs answers. *)
Theorem initialize_with_token
    (failOnPassword allowUnauthorized : bool) (conn : IJupyterConnection) (user : Response)
    (pw : Result (option IJupyterPasswordConnectInfo)) (t : Trust)
    (connect : JupyterSession -> JupyterSession * Result unit)
    (default : IJupyterKernelSpec) (ready : Race unit) (refresh : Race Specs) :
  token conn ≠ "" →
  token conn ≠ "null" →
  ∃ m settings,
    initialize failOnPassword allowUnauthorized conn user pw t = (Ok m, t) ∧
    serverSettings m = Some settings ∧
    s_token settings = token conn ∧ s_appendToken settings = true ∧
    s_baseUrl settings = baseUrl conn ∧
    initialized m = true ∧
    (startNew connect m "k" "/").2 ≠ [] ∧
    ∃ specs, (getKernelSpecs default m ready refresh).1 = Ok specs.
Proof.
  intros Hne Hnull.
  assert (tokenMissing conn = false) as Hmiss.
  { unfold tokenMissing. apply String.eqb_neq in Hne, Hnull. by rewrite Hne, Hnull. }
  unfold initialize, getServerConnectSettings.
  rewrite SessionManagerFacts.check_token by done.
  unfold connectSettings. rewrite Hmiss.
  eexists _, _. split; [reflexivity|]. cbn [serverSettings s_token s_appendToken s_baseUrl].
  split_and!; [done..| |].
  - rewrite SessionManagerFacts.startNew_initialized by done. cbv zeta.
    by destruct (isConnected _).
  - apply RemoteKernelFinderFacts.getKernelSpecs_answers; by eauto.
Qed.

Lemma initialize_with_token_witness :
  ∃ m settings,
    initialize true false someConnection No (Ok None) noTrust = (Ok m, noTrust) ∧
    serverSettings m = Some settings ∧
    s_token settings = "abc" ∧ s_appendToken settings = true ∧
    s_baseUrl settings = "http://host:8888" ∧
    initialized m = true ∧
    (startNew connectTimesOut m "k" "/").2 ≠ [] ∧
    ∃ specs, (getKernelSpecs defaultSpec m TimedOut TimedOut).1 = Ok specs.
Proof.
  apply (initialize_with_token true false someConnection No (Ok None) noTrust
           connectTimesOut defaultSpec TimedOut TimedOut); discriminate.
Defined.

(** *** getKernelSpecs *)

Lemma mapM_defined (kernelspecs : KernelSpecs) :
  allDefined kernelspecs = true →
  ∃ specs, mapM (λ k, JupyterKernelSpec <$> k.2) kernelspecs = Some specs ∧
           length specs = length kernelspecs ∧
           name <$> specs = (λ k, default "" (sm_name <$> k.2)) <$> kernelspecs.
Proof.
  induction kernelspecs as [|[key [model|]] ks IH]; cbn; [by exists [] | | done].
  intros (specs & Hspecs & Hlen & Hnames)%IH.
  exists (JupyterKernelSpec model :: specs). cbn. rewrite Hspecs. cbn.
  by rewrite Hlen, Hnames.
Qed.

(** getKernelSpecs when nothing is thrown before the enumeration. *)
Lemma getKernelSpecs_enumerates default m ready refresh :
  usable m = true →
  noError ready = true →
  (specsManager m = None ∨ noError refresh = true) →
  (getKernelSpecs default m ready refresh).1 =
    match enumerated m refresh with
    | [] => Ok [default]
    | k :: ks =>
        match mapM (λ k, JupyterKernelSpec <$> k.2) (k :: ks) with
        | Some specs => Ok specs
        | None => Ok []
        end
    end.
Proof.
  unfold usable, getKernelSpecs, enumerated, specsAfter. intros Hm Hready Hrefresh.
  repeat (apply andb_prop in Hm as [Hm ?]).
  rewrite Hm. repeat match goal with H : _ = true |- _ => rewrite H end.
  cbn [negb orb].
  destruct ready as [[[]|e]|]; try discriminate;
    destruct (specsManager m) as [sm|] eqn:Hsm;
    destruct refresh as [[fresh|e]|]; try (by destruct Hrefresh);
    cbn [specsManager]; rewrite ?Hsm;
    destruct (kernelspecsOr _ _); try reflexivity;
    by destruct (mapM _ _).
Qed.

Lemma mapM_undefined (kernelspecs : KernelSpecs) :
  allDefined kernelspecs = false →
  mapM (λ k, JupyterKernelSpec <$> k.2) kernelspecs = None.
Proof.
  induction kernelspecs as [|[key [model|]] ks IH]; cbn; [done | | done].
  intros Hks. by rewrite IH.
Qed.

(** X15. When the refresh brings nothing, because it does not end within
    the ten seconds or the server answers no spec, getKernelSpecs answers
    the specs the specs manager held before the refresh, one for each key
    and in their order, and not the default. *)
Theorem getKernelSpecs_falls_back_to_known_specs
    (default : IJupyterKernelSpec) (m : Manager) (ready : Race unit) (refresh : Race Specs)
    (known : KernelSpecs) :
  usable m = true →
  specsManager m = Some (Some known) →
  known ≠ [] →
  allDefined known = true →
  noError ready = true →
  yieldsNoSpecs refresh = true →
  ∃ specs,
    (getKernelSpecs default m ready refresh).1 = Ok specs ∧
    mapM (λ k, JupyterKernelSpec <$> k.2) known = Some specs ∧
    length specs = length known.
Proof.
  intros Hm Hsm Hne Hdef Hready Hrefresh.
  destruct (mapM_defined known Hdef) as (specs & Hspecs & Hlen & _).
  exists specs. split; [|done].
  rewrite getKernelSpecs_enumerates; [|done..|].
  - assert (enumerated m refresh = known) as ->.
    { unfold enumerated, specsAfter. rewrite Hsm.
      destruct known as [|k known]; [done|].
      by destruct refresh as [[[[|r rs]|]|e]|]. }
    destruct known; [done|]. by rewrite Hspecs.
  - right. by destruct refresh as [[?|?]|].
Qed.

Lemma getKernelSpecs_falls_back_to_known_specs_witness :
  ∃ specs,
    (getKernelSpecs defaultSpec managerWithSpecs (Settles (Ok ())) (Settles (Ok (Some [])))).1
      = Ok specs ∧
    mapM (λ k, JupyterKernelSpec <$> k.2) someSpecs = Some specs ∧
    length specs = 2.
Proof.
  apply (getKernelSpecs_falls_back_to_known_specs defaultSpec managerWithSpecs
           (Settles (Ok ())) (Settles (Ok (Some []))) someSpecs); try reflexivity.
  discriminate.
Defined.

(** X16. On a manager that has its fields getKernelSpecs never throws.
    Its answer is empty only when something was thrown and caught on the
    way: the wait for readiness or the refresh rejected, or a kernel spec
    model is missing under a key of the list it enumerates.  And the specs
    a refresh brings replace those known before. *)
Theorem getKernelSpecs_empty_only_on_failure
    (default : IJupyterKernelSpec) (m : Manager) (ready : Race unit) (refresh : Race Specs) :
  usable m = true →
  is_Some (specsManager m) →
  ∃ specs,
    (getKernelSpecs default m ready refresh).1 = Ok specs ∧
    (specs = [] →
       noError ready = false ∨ noError refresh = false ∨
       allDefined (enumerated m refresh) = false) ∧
    (∀ fresh, noError ready = true → refresh = Settles (Ok (Some fresh)) → fresh ≠ [] →
              allDefined fresh = true →
              mapM (λ k, JupyterKernelSpec <$> k.2) fresh = Some specs).
Proof.
  intros Hm Hsm.
  destruct (noError ready) eqn:Hready.
  2:{ exists []. split; [|split; [by left | done]].
      apply SessionManagerFacts.getKernelSpecs_caught; [done | by left]. }
  destruct (noError refresh) eqn:Hrefresh.
  2:{ exists []. split; [|split; [by right; left |]].
      - apply SessionManagerFacts.getKernelSpecs_caught; [done | by right].
      - intros fresh _ ->. done. }
  rewrite getKernelSpecs_enumerates by (done || by right).
  destruct (enumerated m refresh) as [|k ks] eqn:Henum.
  - eexists. split; [reflexivity|]. split; [done|].
    intros fresh _ -> Hne _. exfalso. revert Henum. unfold enumerated, specsAfter.
    destruct Hsm as [sm ->]. by destruct fresh.
  - destruct (allDefined (k :: ks)) eqn:Hdef.
    + destruct (mapM_defined (k :: ks) Hdef) as (specs & Hspecs & Hlen & _).
      rewrite Hspecs. exists specs. split; [done|]. split.
      * intros ->. done.
      * intros fresh _ -> Hne Hfresh. rewrite <- Hspecs, <- Henum.
        unfold enumerated, specsAfter. destruct Hsm as [sm ->]. by destruct fresh.
    + rewrite (mapM_undefined _ Hdef). exists []. split; [done|]. split; [by right; right|].
      intros fresh _ -> Hne Hfresh. exfalso. revert Henum Hdef.
      unfold enumerated, specsAfter. destruct Hsm as [sm ->].
      destruct fresh; [done|]. cbn [kernelspecsOr]. intros <-. congruence.
Qed.

Lemma getKernelSpecs_empty_only_on_failure_witness :
  ∃ specs,
    (getKernelSpecs defaultSpec someManager (Settles (Ok ())) (Settles (Ok (Some someSpecs)))).1
      = Ok specs ∧
    (specs = [] →
       noError (Settles (Ok ())) = false ∨ noError (Settles (Ok (Some someSpecs))) = false ∨
       allDefined (enumerated someManager (Settles (Ok (Some someSpecs)))) = false) ∧
    (∀ fresh, noError (Settles (Ok ())) = true →
              Settles (Ok (Some someSpecs)) = Settles (Ok (Some fresh)) → fresh ≠ [] →
              allDefined fresh = true →
              mapM (λ k, JupyterKernelSpec <$> k.2) fresh = Some specs).
Proof.
  apply (getKernelSpecs_empty_only_on_failure defaultSpec someManager
           (Settles (Ok ())) (Settles (Ok (Some someSpecs)))).
  - reflexivity.
  - by eexists.
Defined.

(** *** getRunningKernels *)

Lemma filterDup_distinct (items : list IJupyterKernel) : ∀ dup : gset string,
  NoDup (id <$> items) →
  (∀ x, x ∈ (id <$> items) → x ∉ dup) →
  filterDup dup items = items.
Proof.
  induction items as [|item items IH]; intros dup Hnd Hfresh; [done|]. cbn.
  apply NoDup_cons in Hnd as [Hitem Hnd].
  rewrite decide_False by (apply Hfresh; cbn; by left).
  f_equal. apply IH; [done|].
  intros x Hx. cbn in Hfresh. specialize (Hfresh x). set_solver.
Qed.

Lemma filterDup_length (items : list IJupyterKernel) : ∀ dup : gset string,
  (length (filterDup dup items) ≤ length items)%nat.
Proof.
  induction items as [|item items IH]; intros dup; cbn; [done|].
  case_decide; cbn; [specialize (IH dup) | specialize (IH ({[id item]} ∪ dup))]; lia.
Qed.

(** X17. getRunningKernels drops an entry only for a repeated id: when the
    ids of the models the server lists are distinct, every model is
    answered, in the order of the server; in any case it answers no more
    entries than the server lists; and what the server call throws, it
    throws. *)
Theorem getRunningKernels_drops_only_repeated_ids
    (now : Z) (Date_parse : string -> Z) (models : list KernelModel) :
  (NoDup (km_id <$> models) →
   getRunningKernels now Date_parse (Ok models) = Ok (toJupyterKernel now Date_parse <$> models)) ∧
  (∃ result, getRunningKernels now Date_parse (Ok models) = Ok result ∧
             (length result ≤ length models)%nat) ∧
  (∀ e, getRunningKernels now Date_parse (Throw e) = Throw e).
Proof.
  split_and!.
  - intros Hnd. cbn. f_equal. apply filterDup_distinct.
    + by rewrite <- list_fmap_compose.
    + set_solver.
  - eexists. split; [reflexivity|].
    etrans; [apply filterDup_length|]. by rewrite length_map.
  - done.
Qed.

(** *** dispose *)

(** X18. dispose never throws.  When the contents manager is disposed
    without an error, the manager is of no use afterwards: startNew and
    getKernelSpecs throw SessionDisposedError, and startNew does so before
    it creates a session.  When the dispose of the contents manager throws
    instead, the error is swallowed before the session manager is looked
    at, and the manager is left as it was. *)
Theorem dispose_ends_the_manager
    (sessionDispose : Result unit) (ready : Race unit) (isDisposed : bool) (m : Manager)
    (connect : JupyterSession -> JupyterSession * Result unit)
    (default : IJupyterKernelSpec) (refresh : Race Specs) :
  contentsManager m = true →
  let disposed := dispose (Ok ()) sessionDispose ready isDisposed m in
  contentsManager disposed = false ∧
  startNew connect disposed "k" "/" = (Throw SessionDisposedError, []) ∧
  (getKernelSpecs default disposed ready refresh).1 = Throw SessionDisposedError ∧
  (sessionManager m = true → isDisposed = false → noError ready = true →
   sessionDispose = Ok () →
   sessionManager disposed = false ∧
   (∀ running, getRunningSessions disposed running = Ok []) ∧
   dispose (Ok ()) sessionDispose ready isDisposed disposed = disposed) ∧
  (∀ e, dispose (Throw e) sessionDispose ready isDisposed m = m).
Proof.
  intros Hcm. cbv zeta.
  assert (contentsManager (dispose (Ok ()) sessionDispose ready isDisposed m) = false) as Hgone.
  { unfold dispose. rewrite Hcm. cbn [sessionManager].
    destruct (sessionManager m && negb isDisposed); [|done].
    by destruct ready as [[[]|?]|], sessionDispose as [[]|?]. }
  split_and!.
  - done.
  - apply SessionManagerFacts.startNew_uninitialized. unfold initialized.
    rewrite Hgone. by rewrite !andb_false_r.
  - unfold getKernelSpecs. rewrite Hgone. cbn. by rewrite !orb_true_r.
  - intros Hsm -> Hready ->. unfold dispose. rewrite Hcm. cbn [sessionManager contentsManager].
    rewrite Hsm. cbn [negb andb].
    destruct ready as [[[]|?]|]; try discriminate; done.
  - intros e. unfold dispose. by rewrite Hcm.
Qed.

Lemma dispose_ends_the_manager_witness :
  let disposed := dispose (Ok ()) (Ok ()) TimedOut false someManager in
  contentsManager disposed = false ∧
  startNew connectTimesOut disposed "k" "/" = (Throw SessionDisposedError, []) ∧
  (getKernelSpecs defaultSpec disposed TimedOut TimedOut).1 = Throw SessionDisposedError ∧
  (sessionManager someManager = true → false = false → noError (TimedOut : Race unit) = true →
   Ok () = Ok () →
   sessionManager disposed = false ∧
   (∀ running, getRunningSessions disposed running = Ok []) ∧
   dispose (Ok ()) (Ok ()) TimedOut false disposed = disposed) ∧
  (∀ e, dispose (Throw e) (Ok ()) TimedOut false someManager = someManager).
Proof.
  apply (dispose_ends_the_manager (Ok ()) TimedOut false someManager connectTimesOut
           defaultSpec TimedOut).
  reflexivity.
Defined.

End SessionManagerMoreFacts.


(** ** More on the remote kernel finder *)

Module RemoteKernelFinderMoreFacts.

Import SessionManager RemoteKernelFinder IgnoreList Examples.Sessions Examples.Finder.

Lemma mapAll_Forall {A B} (f : A -> Result B) (P : B -> Prop) (l : list A) :
  (∀ a b, f a = Ok b → P b) →
  ∀ bs, mapAll f l = Ok bs → Forall P bs.
Proof.
  intros Hf. induction l as [|a l IH]; cbn; intros bs.
  - intros [= <-]. constructor.
  - destruct (f a) as [b|e] eqn:Hb; [|done].
    destruct (mapAll f l) as [bs'|e]; [|done].
    intros [= <-]. constructor; [by eapply Hf | by apply IH].
Qed.

Lemma mapAll_ok {A B} (f : A -> Result B) (g : A -> B) (l : list A) :
  (∀ a, a ∈ l → f a = Ok (g a)) → mapAll f l = Ok (g <$> l).
Proof.
  induction l as [|a l IH]; intros Hf; cbn; [done|].
  rewrite Hf by by left. rewrite IH; [done|]. intros a' Ha'. apply Hf. by right.
Qed.

Lemma mapAll_throws {A B} (f : A -> Result B) (err : Error) (l : list A) :
  (∀ a e, f a = Throw e → e = err) →
  (∃ a, a ∈ l ∧ f a = Throw err) →
  mapAll f l = Throw err.
Proof.
  intros Honly. induction l as [|a l IH]; intros (a' & Hin & Ha').
  - by apply elem_of_nil in Hin.
  - cbn. destruct (f a) as [b|e] eqn:Hb.
    + rewrite IH; [done|]. apply elem_of_cons in Hin as [->|Hin]; [congruence|]. eauto.
    + by rewrite (Honly a e Hb).
Qed.

Lemma hidden_union (hide hide' : gset string) k :
  hidden (hide ∪ hide') k = false ↔ hidden hide k = false ∧ hidden hide' k = false.
Proof.
  destruct k as [? ? ? ?|model ? ?]; cbn; [done|].
  rewrite !bool_decide_eq_false. set_solver.
Qed.

Section Facts.

Variable now : Z.
Variable Date_parse : string -> Z.
Variable createInterpreterKernelSpec : IJupyterKernelSpec.
Variable getKernelId : IJupyterKernelSpec -> string -> string.
Variable URL_hostname : string -> option string.
Variable toLocaleLowerCase : string -> string.
Variable getInterpreterDetails : option string -> Result (option string).

Local Abbreviation listKernels :=
  (listKernels now Date_parse createInterpreterKernelSpec getKernelId URL_hostname
     toLocaleLowerCase getInterpreterDetails).
Local Abbreviation mappedSpecs :=
  (mappedSpecs getKernelId URL_hostname toLocaleLowerCase getInterpreterDetails).
Local Abbreviation getInterpreter :=
  (getInterpreter URL_hostname toLocaleLowerCase getInterpreterDetails).

(** What a listing answers is the live kernels that are not hidden,
    followed by the specs; the list to hide has no part in anything else. *)
Lemma listKernels_shape (c : IJupyterConnection) (w : World) (t : Trust) :
  ∃ body : Result (list KernelConnectionMetadata * list KernelConnectionMetadata),
    (∀ hide, (listKernels hide (Some (Jupyter c)) w t).1.1 =
             match body with
             | Throw e => Throw e
             | Ok (live, specs) => Ok (filter (λ k, hidden hide k = false) live ++ specs)
             end) ∧
    (∀ live specs, body = Ok (live, specs) → Forall (λ k, ∀ hide, hidden hide k = false) specs).
Proof.
  unfold RemoteKernelFinder.listKernels.
  destruct (create w c t) as [[m|e] t'].
  2:{ exists (Throw e). split; [done | by intros]. }
  destruct (promiseAll3 _ _ _) as [[[running specs] sessions]|e].
  2:{ exists (Throw e). split; [done | by intros]. }
  destruct (RemoteKernelFinder.mappedSpecs _ _ _ _ specs (baseUrl c)) as [ms|e] eqn:Hms.
  2:{ exists (Throw e). split; [done | by intros]. }
  destruct (mapAll _ sessions) as [live|e].
  2:{ exists (Throw e). split; [done | by intros]. }
  exists (Ok (live, ms)). split; [done|]. intros ? ? [= <- <-].
  eapply mapAll_Forall; [|exact Hms]. intros s k. cbn.
  destruct (RemoteKernelFinder.getInterpreter _ _ _ _ _); [|done]. by intros [= <-].
Qed.

Lemma filter_specs (P : KernelConnectionMetadata → Prop) `{!∀ k, Decision (P k)} specs :
  Forall P specs → filter P specs = specs.
Proof.
  induction 1 as [|k specs Hk _ IH]; [done|]. by rewrite filter_cons_True, IH.
Qed.

Lemma mappedSpecs_other_host (specs : list IJupyterKernelSpec) (baseUrl hostname : string) :
  URL_hostname baseUrl = Some hostname →
  sameMachine toLocaleLowerCase hostname = false →
  mappedSpecs specs baseUrl =
    Ok ((λ s, startUsingRemoteKernelSpec None s (getKernelId s baseUrl) baseUrl) <$> specs).
Proof.
  intros Hurl Hremote. apply mapAll_ok. intros spec _.
  unfold RemoteKernelFinder.getInterpreter. rewrite Hurl.
  unfold sameMachine in Hremote. by rewrite Hremote.
Qed.

(** X19. Putting a kernel on the list of kernels to hide only takes the
    live kernels with its id or client id out of what listKernels answers;
    no spec and no other live kernel goes, and nothing else changes.
    Taking the kernel off the list again unhides both ids, also an id that
    was on the list before; when neither was, the listing is as before. *)
Theorem ignore_list_only_filters_live_kernels
    (hide : gset string) (kernel : IKernelConnection)
    (c : IJupyterConnection) (w : World) (t : Trust)
    (items : list KernelConnectionMetadata) :
  (listKernels hide (Some (Jupyter c)) w t).1.1 = Ok items →
  (listKernels (addKernelToIgnoreList kernel hide) (Some (Jupyter c)) w t).1.1
    = Ok (filter (λ k, hidden (idsOf kernel) k = false) items) ∧
  (listKernels (removeKernelFromIgnoreList kernel (addKernelToIgnoreList kernel hide))
     (Some (Jupyter c)) w t).1.1
    = (listKernels (hide ∖ idsOf kernel) (Some (Jupyter c)) w t).1.1 ∧
  (kc_id kernel ∉ hide → clientId kernel ∉ hide →
   (listKernels (removeKernelFromIgnoreList kernel (addKernelToIgnoreList kernel hide))
      (Some (Jupyter c)) w t).1.1 = Ok items).
Proof.
  intros Hitems.
  destruct (listKernels_shape c w t) as (body & Hshape & Hspecs).
  rewrite Hshape in Hitems. destruct body as [[live specs]|e]; [|done].
  injection Hitems as <-. specialize (Hspecs live specs eq_refl).
  assert (removeKernelFromIgnoreList kernel (addKernelToIgnoreList kernel hide)
          = hide ∖ idsOf kernel) as Hset.
  { unfold removeKernelFromIgnoreList, addKernelToIgnoreList, idsOf. set_solver. }
  split_and!.
  - rewrite Hshape. f_equal. rewrite filter_app, list_filter_filter.
    rewrite (filter_specs _ specs) by (eapply Forall_impl; [exact Hspecs | by cbn]).
    f_equal. apply list_filter_iff. intros k.
    replace (addKernelToIgnoreList kernel hide) with (idsOf kernel ∪ hide)
      by (unfold addKernelToIgnoreList, idsOf; set_solver).
    rewrite hidden_union. tauto.
  - by rewrite Hset.
  - intros Hid Hcid. rewrite Hset, Hshape.
    replace (hide ∖ idsOf kernel) with hide; [done|].
    unfold idsOf. set_solver.
Qed.

(** X20. A running session without a kernel makes listKernels fail with a
    TypeError once the session manager, the running kernels, the specs and
    the sessions are there: the callback that maps the sessions reads a
    property of the missing kernel. *)
Theorem session_without_kernel_throws
    (hide : gset string) (c : IJupyterConnection) (w : World) (t : Trust)
    (m : Manager) (models : list KernelModel) (sessions : list SessionModel)
    (s : SessionModel) (hostname : string) :
  (create w c t).1 = Ok m →
  outcome (listRunning w) = Ok models →
  outcome (refreshRunning w) = Ok sessions →
  URL_hostname (baseUrl c) = Some hostname →
  sameMachine toLocaleLowerCase hostname = false →
  s ∈ sessions →
  kernel s = None →
  (listKernels hide (Some (Jupyter c)) w t).1.1 = Throw TypeError.
Proof.
  intros Hm Hrunning Hsessions Hurl Hremote Hs Hkernel.
  unfold RemoteKernelFinder.listKernels.
  pose proof (RemoteKernelFinderFacts.initialize_usable _ _ _ _ _ _ _ Hm) as (Hc & Hsm & Hcm).
  destruct (create w c t) as [[m'|e'] t'] eqn:Hcreate; simplify_eq/=.
  destruct (RemoteKernelFinderFacts.getKernelSpecs_answers createInterpreterKernelSpec m
              (ready w) (refresh w)) as [specs Hspecs]; [by rewrite Hc | done | done |].
  unfold promiseAll3, getRunningSessions. cbn [outcome].
  rewrite Hrunning, Hsessions, Hspecs, Hsm. cbn.
  rewrite (mappedSpecs_other_host _ _ _ Hurl Hremote).
  rewrite (mapAll_throws _ TypeError); [done| |].
  - intros a e. unfold mappedLive1. by destruct (kernel a); [|intros [= <-]].
  - exists s. split; [done|]. unfold mappedLive1. by rewrite Hkernel.
Qed.

(** X21. The interpreter of a remote kernel spec is looked up only when the
    host of the base URL is localhost or 127.0.0.1.  For any other host
    every spec gets its entry with no interpreter and the interpreter
    service is not asked.  A base URL that does not parse makes the mapping
    throw a TypeError as soon as there is one spec, and does no harm when
    there is none. *)
Theorem interpreter_only_on_same_machine
    (specs : list IJupyterKernelSpec) (baseUrl : string) :
  (∀ hostname, URL_hostname baseUrl = Some hostname →
     sameMachine toLocaleLowerCase hostname = false →
     mappedSpecs specs baseUrl =
       Ok ((λ s, startUsingRemoteKernelSpec None s (getKernelId s baseUrl) baseUrl) <$> specs)) ∧
  (∀ hostname spec, URL_hostname baseUrl = Some hostname →
     sameMachine toLocaleLowerCase hostname = true →
     getInterpreter spec baseUrl = getInterpreterDetails (head (argv spec))) ∧
  (URL_hostname baseUrl = None →
     mappedSpecs specs baseUrl = if decide (specs = []) then Ok [] else Throw TypeError).
Proof.
  split_and!.
  - apply mappedSpecs_other_host.
  - intros hostname spec Hurl Hlocal. unfold RemoteKernelFinder.getInterpreter.
    rewrite Hurl. unfold sameMachine in Hlocal. by rewrite Hlocal.
  - intros Hurl. destruct specs as [|spec specs]; [done|].
    rewrite decide_False by done. unfold RemoteKernelFinder.mappedSpecs. cbn.
    unfold RemoteKernelFinder.getInterpreter. by rewrite Hurl.
Qed.

End Facts.

Lemma ignore_list_only_filters_live_kernels_witness :
  ∃ items,
    listingOf serverUp ∅ = Ok items ∧
    listingOf serverUp (addKernelToIgnoreList restarted ∅)
      = Ok (filter (λ k, hidden (idsOf restarted) k = false) items).
Proof.
  eexists. split; [vm_compute; reflexivity|].
  refine (proj1 (ignore_list_only_filters_live_kernels 0 (λ _, 0%Z) defaultSpec
                   (λ spec _, name spec) (λ _, Some "host") (λ s, s) (λ _, Ok None)
                   ∅ restarted someConnection serverUp noTrust _ _)).
  vm_compute; reflexivity.
Defined.

Lemma session_without_kernel_throws_witness :
  listingOf serverWithOrphan ∅ = Throw TypeError.
Proof.
  apply (session_without_kernel_throws 0 (λ _, 0%Z) defaultSpec
           (λ spec _, name spec) (λ _, Some "host") (λ s, s) (λ _, Ok None)
           ∅ someConnection serverWithOrphan noTrust someManager [kernelA]
           [ {| session_id := "s1"; kernel := Some kernelA |};
             {| session_id := "s0"; kernel := None |} ]
           {| session_id := "s0"; kernel := None |} "host");
    try reflexivity.
  apply elem_of_cons; right; apply elem_of_cons; by left.
Defined.

End RemoteKernelFinderMoreFacts.


(** ** The kernel finder: cached kernels *)

Module KernelFinderFacts.

Import KernelFinder.

Lemma prefix_split (sub s : string) :
  String.prefix sub s = true → ∃ post, s = sub +:+ post.
Proof.
  revert s. induction sub as [|c sub IH]; intros s; simpl.
  - intros _. by exists s.
  - destruct s as [|c' s]; simpl; [done|].
    destruct (Ascii.ascii_dec c c') as [<-|]; [|done].
    intros [post ->]%IH. by exists post.
Qed.

Lemma includes_unfold (sub s : string) :
  includes sub s = String.prefix sub s ||
                   match s with EmptyString => false | String _ s' => includes sub s' end.
Proof. by destruct s. Qed.

Lemma includes_spec (sub s : string) :
  includes sub s = true ↔ ∃ pre post, s = pre +:+ sub +:+ post.
Proof.
  split.
  - induction s as [|c s IH]; rewrite includes_unfold, orb_true_iff.
    + intros [[post ->]%prefix_split|]; [|done]. by exists EmptyString, post.
    + intros [[post ->]%prefix_split|Hin]; [by exists EmptyString, post|].
      destruct (IH Hin) as (pre & post & ->). by exists (String c pre), post.
  - intros (pre & post & ->). induction pre as [|c pre IH]; rewrite includes_unfold.
    + change ("" +:+ sub +:+ post) with (sub +:+ post).
      by rewrite SessionManagerMoreFacts.prefix_app.
    + change (String c pre +:+ sub +:+ post) with (String c (pre +:+ sub +:+ post)).
      cbv beta iota. rewrite IH. apply orb_true_r.
Qed.

Section Facts.

Variable localFileExists : string -> bool.
Variable getUri : string.

Local Abbreviation isValidCachedKernel := (isValidCachedKernel localFileExists getUri).

(** X22. A cached kernel of a local kernel spec is dropped in one case
    only: it has an interpreter whose file is gone, and its spec file is
    either not recorded or still there.  So a kernel whose spec file has
    been deleted stays valid, whatever has become of its interpreter, and
    so does a kernel without an interpreter. *)
Theorem local_kernelspec_invalid_only_without_interpreter
    (specFile interpreter : option string) :
  (isValidCachedKernel (startUsingLocalKernelSpec specFile interpreter) = false ↔
   ∃ interpreterPath,
     interpreter = Some interpreterPath ∧
     localFileExists interpreterPath = false ∧
     (truthy specFile = true → localFileExists (show specFile) = true)) ∧
  (truthy specFile = true → localFileExists (show specFile) = false →
   isValidCachedKernel (startUsingLocalKernelSpec specFile interpreter) = true) ∧
  (interpreter = None →
   isValidCachedKernel (startUsingLocalKernelSpec specFile interpreter) = true).
Proof.
  split_and!.
  - cbn. destruct interpreter as [interpreterPath|].
    + destruct (truthy specFile); [destruct (localFileExists (show specFile)) eqn:Hspec|].
      * split; [intros Hip; exists interpreterPath; by split_and! | by intros (? & [= <-] & ? & _)].
      * split; [done | intros (? & _ & _ & Hup); by specialize (Hup eq_refl)].
      * split; [intros Hip; exists interpreterPath; by split_and! | by intros (? & [= <-] & ? & _)].
    + split; [done | by intros (? & ? & _)].
  - intros Hrecorded Hgone. cbn. rewrite Hrecorded, Hgone. by destruct interpreter.
  - intros ->. cbn. done.
Qed.

(** X23. A cached remote kernel, of a spec or live, is valid exactly when
    its base URL occurs somewhere in the stored server URI: the URI need
    not be the base URL, nor start with it. *)
Theorem remote_kernel_valid_iff_uri_contains_baseUrl (baseUrl : string) :
  (isValidCachedKernel (startUsingRemoteKernelSpec baseUrl) = true ↔
   ∃ pre post, getUri = pre +:+ baseUrl +:+ post) ∧
  (isValidCachedKernel (connectToLiveRemoteKernel baseUrl) = true ↔
   ∃ pre post, getUri = pre +:+ baseUrl +:+ post).
Proof. split; apply includes_spec. Qed.

End Facts.

End KernelFinderFacts.

(** ** jupyterUtils: the connection made for a remote URI *)

Module JupyterUtilsFacts.

Import SessionManager JupyterUtils Examples.Utils.

Lemma replace_first (pat rep pre rest : string) :
  firstOccurrence pat pre rest = true →
  replace pat rep (pre +:+ pat +:+ rest) = pre +:+ rep +:+ rest.
Proof.
  induction pre as [|c pre IH].
  - intros _. exact (SessionManagerMoreFacts.replace_prefix pat rep rest).
  - cbn [firstOccurrence]. rewrite andb_true_iff, negb_true_iff. intros [Hno Hfirst].
    change (String c pre +:+ pat +:+ rest) with (String c (pre +:+ pat +:+ rest)) in *.
    cbn [replace]. rewrite Hno. by rewrite IH.
Qed.

Section Facts.

Variable parseURL : string -> option URL.
Variable getJupyterServerUri : string -> option IJupyterServerUri.
Variable getJupyterConnectionDisplayName : string -> string -> string.

Local Abbreviation createRemoteConnectionInfo :=
  (createRemoteConnectionInfo parseURL getJupyterServerUri getJupyterConnectionDisplayName).

(** What createRemoteConnectionInfo answers when no provider knows the URI. *)
Lemma created_without_provider uri info u :
  createRemoteConnectionInfo uri = Ok info →
  parseURL (url info) = Some u →
  getJupyterServerUri (url info) = None →
  connection info =
    {| baseUrl := protocol u +:+ "//" +:+ host u +:+ pathname u;
       token := showNull (tokenParam u);
       localLaunch := false;
       getAuthHeader := false |}.
Proof.
  unfold JupyterUtils.createRemoteConnectionInfo.
  destruct (parseURL uri) as [u0|]; [|done].
  set (uri' := if String.eqb (pathname u0) "/lab" then _ else _).
  destruct (parseURL uri') as [u'|] eqn:Hu'; [|done].
  destruct (getJupyterServerUri uri') as [su|] eqn:Hsu.
  - destruct (hostname <$> parseURL (su_baseUrl su)); [|done].
    intros [= <-]. cbn. congruence.
  - intros [= <-]. cbn. rewrite Hu'. by intros [= <-] _.
Qed.

(** X24. For a remote URI that no provider knows, the token of the
    connection is the token parameter of the URI, and the text null when the
    URI has none.  So a URI with a token parameter other than null, the
    empty one included, passes the check of insecure connections without a
    question; a plain http URI without a token parameter puts the prompt
    on screen on its first check, and the answer decides. *)
Theorem uri_token_decides_trust_prompt
    (uri : string) (info : RemoteConnectionInfo) (u : URL) :
  createRemoteConnectionInfo uri = Ok info →
  parseURL (url info) = Some u →
  getJupyterServerUri (url info) = None →
  token (connection info) = showNull (tokenParam u) ∧
  (∀ tok user t, tokenParam u = Some tok → tok ≠ "null" →
     secureConnectionCheck (connection info) user t = (Ok (), t)) ∧
  (∀ user t, tokenParam u = None → protocol u = "http:" →
     userAllowsInsecureConnections t = false →
     secureServers t !! baseUrl (connection info) = None →
     let checked := secureConnectionCheck (connection info) user t in
     promptsShown checked.2 = S (promptsShown t) ∧
     checked.1 = if promptValue user then Ok () else Throw InsecureSessionDenied).
Proof.
  intros Hinfo Hu Hnone.
  pose proof (created_without_provider uri info u Hinfo Hu Hnone) as Hconn.
  split_and!.
  - by rewrite Hconn.
  - intros tok user t Htok Hne. apply SessionManagerFacts.check_token.
    rewrite Hconn. cbn. by rewrite Htok.
  - intros user t Htok Hhttp Hflag Hfresh. cbv zeta.
    rewrite SessionManagerFacts.check_asks; try done.
    + cbn. unfold promptsShown. rewrite length_app. cbn. split; [lia | done].
    + by rewrite Hconn.
    + rewrite Hconn. cbn. by rewrite Hhttp.
    + rewrite Hconn. cbn. by rewrite Htok.
Qed.

(** X25. The special case for a URI whose path is /lab takes out the first
    lab of the whole URI, which need not be the one of the path: the URI
    the connection keeps is the given one without its first lab.  A URI
    with another path is kept as given. *)
Theorem lab_removal_takes_first_occurrence
    (uri : string) (u0 : URL) (info : RemoteConnectionInfo) :
  parseURL uri = Some u0 →
  createRemoteConnectionInfo uri = Ok info →
  (pathname u0 ≠ "/lab" → url info = uri) ∧
  (pathname u0 = "/lab" →
   ∀ pre rest, uri = pre +:+ "lab" +:+ rest → firstOccurrence "lab" pre rest = true →
               url info = pre +:+ rest).
Proof.
  intros Hu0. unfold JupyterUtils.createRemoteConnectionInfo. rewrite Hu0.
  set (uri' := if String.eqb (pathname u0) "/lab" then _ else _).
  destruct (parseURL uri') as [u'|]; [|done].
  destruct (match getJupyterServerUri uri' with Some _ => _ | None => _ end); [|done].
  intros [= <-]. cbn [url]. subst uri'. split.
  - intros Hpath. by rewrite (proj2 (String.eqb_neq _ _) Hpath).
  - intros Hpath pre rest -> Hfirst. rewrite (proj2 (String.eqb_eq _ _) Hpath).
    by rewrite replace_first.
Qed.

End Facts.

Lemma uri_token_decides_trust_prompt_witness :
  ∃ info, infoOf "http://host:8888/" = Ok info ∧ token (connection info) = "null".
Proof.
  eexists. split; [reflexivity|].
  refine (proj1 (uri_token_decides_trust_prompt parseExample noServerUri displayNameOf
                   "http://host:8888/" _
                   {| protocol := "http:"; host := "host:8888"; hostname := "host";
                      pathname := "/"; tokenParam := None |} _ _ _));
    reflexivity.
Defined.

Lemma lab_removal_takes_first_occurrence_witness :
  ∃ info, infoOf "http://lab.example.com/lab" = Ok info ∧
          url info = "http://.example.com/lab".
Proof.
  eexists. split; [reflexivity|].
  refine (proj2 (lab_removal_takes_first_occurrence parseExample noServerUri displayNameOf
                   "http://lab.example.com/lab"
                   {| protocol := "http:"; host := "lab.example.com";
                      hostname := "lab.example.com"; pathname := "/lab";
                      tokenParam := None |} _ _ _) _ "http://" ".example.com/lab" _ _);
    reflexivity.
Defined.

End JupyterUtilsFacts.

